(** * PagerView.web: the interaction state machine of the web pager

    A shallow embedding of [src/PagerView.web.tsx]: the scroll metrics, the
    navigation operation [scrollTo], the snap routine, the settle timer and
    the pointer handlers, followed by the properties of the specification.

    Numbers.  JavaScript numbers are modelled exactly: page indices, pointer
    identifiers and [clientWidth] are integers ([Z]); scroll offsets, the page
    margin and pointer coordinates are rationals ([Q]).  Rounding errors of
    IEEE-754 doubles, [NaN] and the infinities are outside the model; the one
    place where the source could produce them, a division by zero, is flagged
    as a fault (see [divide]).

    Effects.  The component mutates its refs, the scroller's DOM node, the
    style of [document.body] and the timers of [window], and it calls the
    observers [onPageScroll], [onPageSelected], [onPageScrollStateChanged] and
    the node's [scrollTo].  The mutable part is the record [Pager]; what is
    handed to the outside is logged as a list of [Effect]s.  Handlers are
    written in a small state/log/fault monad [M]. *)

From Stdlib Require Import ZArith NArith QArith Qround Qabs Qminmax.
From Stdlib Require Import List String Bool Lia Lqa.
Import ListNotations.

Local Open Scope Z_scope.

(** ** JavaScript's [Math] on the number model *)

Module Math.

Class MinMax (A : Type) := { max : A -> A -> A; min : A -> A -> A }.

#[global] Instance MinMax_Z : MinMax Z := {| max := Z.max; min := Z.min |}.
#[global] Instance MinMax_Q : MinMax Q := {| max := Qmax; min := Qmin |}.

Definition floor (x : Q) : Z := Qfloor x.

(* Math.round rounds to the nearest integer, ties towards +infinity. *)
Definition round (x : Q) : Z := Qfloor (x + (1 # 2)).

Definition abs (x : Q) : Q := Qabs x.

End Math.

(* const clamp = (v, a, b) => Math.max(a, Math.min(b, v)); *)
Definition clamp {A : Type} `{Math.MinMax A} (v a b : A) : A :=
  Math.max a (Math.min b v).

(** ** Props, DOM and refs *)

Inductive LayoutDirection := ltr | rtl.
Inductive Orientation := horizontal | vertical.
Inductive PageScrollState := idle | dragging | settling.
Inductive ScrollBehavior := behavior_smooth | behavior_auto.

(* The destructured props with their defaults applied; an observer prop is
   [true] when the callback is supplied.  [pageCount] is
   [React.Children.toArray(props.children).length]. *)
Record NativeProps := {
  scrollEnabled : bool;
  layoutDirection : LayoutDirection;
  initialPage : Z;
  orientation : Orientation;
  pageMargin : Q;
  onPageScroll : bool;
  onPageSelected : bool;
  onPageScrollStateChanged : bool;
  pageCount : nat
}.

(* The scroller <div>: what the code reads and writes of it. *)
Record HTMLDivElement := {
  clientWidth : Z;
  scrollLeft : Q;
  style_cursor : string;
  pointerCapture : list Z
}.

Record PointerEvent := { pointerId : Z; clientX : Q }.

Record Start := { start_x : Q; start_sl : Q }.
Record Restore := { userSelect : string; cursor : string }.

(* One mounted pager instance together with the part of the host it touches.
   [scrollerRef] tells whether [scrollerRef.current] is non-null; the node it
   points to is [scroller] (every [el] of the source aliases this one node). *)
Record Pager := {
  scrollerRef : bool;
  scrollEnabledRef : bool;
  draggingRef : bool;
  startRef : option Start;
  restoreRef : option Restore;
  currentIndexRef : Z;
  settleTimer : option nat;
  scroller : HTMLDivElement;
  body_userSelect : string;       (* document.body.style.userSelect *)
  timeouts : list (nat * N);      (* window: pending timeouts, handle and deadline *)
  nextHandle : nat;               (* window: the handle setTimeout returns next *)
  now : N                         (* window: the clock, in milliseconds *)
}.

Definition set_scrollEnabledRef (v : bool) (s : Pager) : Pager :=
  {| scrollerRef := scrollerRef s; scrollEnabledRef := v;
     draggingRef := draggingRef s; startRef := startRef s;
     restoreRef := restoreRef s; currentIndexRef := currentIndexRef s;
     settleTimer := settleTimer s; scroller := scroller s;
     body_userSelect := body_userSelect s; timeouts := timeouts s;
     nextHandle := nextHandle s; now := now s |}.

Definition set_draggingRef (v : bool) (s : Pager) : Pager :=
  {| scrollerRef := scrollerRef s; scrollEnabledRef := scrollEnabledRef s;
     draggingRef := v; startRef := startRef s;
     restoreRef := restoreRef s; currentIndexRef := currentIndexRef s;
     settleTimer := settleTimer s; scroller := scroller s;
     body_userSelect := body_userSelect s; timeouts := timeouts s;
     nextHandle := nextHandle s; now := now s |}.

Definition set_startRef (v : option Start) (s : Pager) : Pager :=
  {| scrollerRef := scrollerRef s; scrollEnabledRef := scrollEnabledRef s;
     draggingRef := draggingRef s; startRef := v;
     restoreRef := restoreRef s; currentIndexRef := currentIndexRef s;
     settleTimer := settleTimer s; scroller := scroller s;
     body_userSelect := body_userSelect s; timeouts := timeouts s;
     nextHandle := nextHandle s; now := now s |}.

Definition set_restoreRef (v : option Restore) (s : Pager) : Pager :=
  {| scrollerRef := scrollerRef s; scrollEnabledRef := scrollEnabledRef s;
     draggingRef := draggingRef s; startRef := startRef s;
     restoreRef := v; currentIndexRef := currentIndexRef s;
     settleTimer := settleTimer s; scroller := scroller s;
     body_userSelect := body_userSelect s; timeouts := timeouts s;
     nextHandle := nextHandle s; now := now s |}.

Definition set_currentIndexRef (v : Z) (s : Pager) : Pager :=
  {| scrollerRef := scrollerRef s; scrollEnabledRef := scrollEnabledRef s;
     draggingRef := draggingRef s; startRef := startRef s;
     restoreRef := restoreRef s; currentIndexRef := v;
     settleTimer := settleTimer s; scroller := scroller s;
     body_userSelect := body_userSelect s; timeouts := timeouts s;
     nextHandle := nextHandle s; now := now s |}.

Definition set_settleTimer (v : option nat) (s : Pager) : Pager :=
  {| scrollerRef := scrollerRef s; scrollEnabledRef := scrollEnabledRef s;
     draggingRef := draggingRef s; startRef := startRef s;
     restoreRef := restoreRef s; currentIndexRef := currentIndexRef s;
     settleTimer := v; scroller := scroller s;
     body_userSelect := body_userSelect s; timeouts := timeouts s;
     nextHandle := nextHandle s; now := now s |}.

Definition set_scroller (v : HTMLDivElement) (s : Pager) : Pager :=
  {| scrollerRef := scrollerRef s; scrollEnabledRef := scrollEnabledRef s;
     draggingRef := draggingRef s; startRef := startRef s;
     restoreRef := restoreRef s; currentIndexRef := currentIndexRef s;
     settleTimer := settleTimer s; scroller := v;
     body_userSelect := body_userSelect s; timeouts := timeouts s;
     nextHandle := nextHandle s; now := now s |}.

Definition set_body_userSelect (v : string) (s : Pager) : Pager :=
  {| scrollerRef := scrollerRef s; scrollEnabledRef := scrollEnabledRef s;
     draggingRef := draggingRef s; startRef := startRef s;
     restoreRef := restoreRef s; currentIndexRef := currentIndexRef s;
     settleTimer := settleTimer s; scroller := scroller s;
     body_userSelect := v; timeouts := timeouts s;
     nextHandle := nextHandle s; now := now s |}.

Definition set_timeouts (v : list (nat * N)) (s : Pager) : Pager :=
  {| scrollerRef := scrollerRef s; scrollEnabledRef := scrollEnabledRef s;
     draggingRef := draggingRef s; startRef := startRef s;
     restoreRef := restoreRef s; currentIndexRef := currentIndexRef s;
     settleTimer := settleTimer s; scroller := scroller s;
     body_userSelect := body_userSelect s; timeouts := v;
     nextHandle := nextHandle s; now := now s |}.

Definition set_nextHandle (v : nat) (s : Pager) : Pager :=
  {| scrollerRef := scrollerRef s; scrollEnabledRef := scrollEnabledRef s;
     draggingRef := draggingRef s; startRef := startRef s;
     restoreRef := restoreRef s; currentIndexRef := currentIndexRef s;
     settleTimer := settleTimer s; scroller := scroller s;
     body_userSelect := body_userSelect s; timeouts := timeouts s;
     nextHandle := v; now := now s |}.

Definition set_now (v : N) (s : Pager) : Pager :=
  {| scrollerRef := scrollerRef s; scrollEnabledRef := scrollEnabledRef s;
     draggingRef := draggingRef s; startRef := startRef s;
     restoreRef := restoreRef s; currentIndexRef := currentIndexRef s;
     settleTimer := settleTimer s; scroller := scroller s;
     body_userSelect := body_userSelect s; timeouts := timeouts s;
     nextHandle := nextHandle s; now := v |}.

Definition set_scrollLeft (v : Q) (el : HTMLDivElement) : HTMLDivElement :=
  {| clientWidth := clientWidth el; scrollLeft := v;
     style_cursor := style_cursor el; pointerCapture := pointerCapture el |}.

Definition set_style_cursor (v : string) (el : HTMLDivElement) : HTMLDivElement :=
  {| clientWidth := clientWidth el; scrollLeft := scrollLeft el;
     style_cursor := v; pointerCapture := pointerCapture el |}.

Definition set_pointerCapture (v : list Z) (el : HTMLDivElement) : HTMLDivElement :=
  {| clientWidth := clientWidth el; scrollLeft := scrollLeft el;
     style_cursor := style_cursor el; pointerCapture := v |}.

(** ** What the component hands to the outside *)

Inductive Fault :=
| NullDereference      (* TypeError: property read on null *)
| DivisionByZero.      (* a quotient that is Infinity or NaN in JavaScript *)

Inductive Effect :=
| PageScroll (position : Z) (offset : Q)          (* onPageScroll({nativeEvent}) *)
| PageSelected (position : Z)                     (* onPageSelected({nativeEvent}) *)
| PageScrollStateChanged (s : PageScrollState)    (* onPageScrollStateChanged(...) *)
| ScrollTo (left : Q) (behavior : ScrollBehavior) (* el.scrollTo({left, behavior}) *)
| Uncaught (f : Fault).                           (* a handler ended abruptly *)

(** ** The handler monad: state, log, abrupt completion

    A fault keeps the mutations and the log made before it, as a JavaScript
    exception does. *)

Inductive Completion (A : Type) :=
| Normal (a : A)
| Abrupt (f : Fault).
Arguments Normal {A} a.
Arguments Abrupt {A} f.

Record Outcome (A : Type) := mkOutcome {
  final : Pager;
  emitted : list Effect;
  completion : Completion A
}.
Arguments mkOutcome {A}.
Arguments final {A}.
Arguments emitted {A}.
Arguments completion {A}.

Definition M (A : Type) : Type := Pager -> Outcome A.

Definition ret {A} (a : A) : M A := fun s => mkOutcome s [] (Normal a).

Definition bind {A B} (m : M A) (k : A -> M B) : M B := fun s =>
  match m s with
  | mkOutcome s1 o1 (Normal a) =>
      match k a s1 with
      | mkOutcome s2 o2 c => mkOutcome s2 (o1 ++ o2) c
      end
  | mkOutcome s1 o1 (Abrupt f) => mkOutcome s1 o1 (Abrupt f)
  end.

Definition get : M Pager := fun s => mkOutcome s [] (Normal s).
Definition modify (f : Pager -> Pager) : M unit := fun s => mkOutcome (f s) [] (Normal tt).
Definition emit (e : Effect) : M unit := fun s => mkOutcome s [e] (Normal tt).
Definition throw {A} (f : Fault) : M A := fun s => mkOutcome s [] (Abrupt f).

Declare Scope pager_scope.
Delimit Scope pager_scope with pager.
Notation "x <- m ;; k" := (bind m (fun x => k))
  (at level 100, m at next level, right associativity) : pager_scope.
Notation "m ;; k" := (bind m (fun _ => k))
  (at level 100, right associativity) : pager_scope.
Local Open Scope pager_scope.

(* [f?.(e)]: the call happens when the observer is supplied. *)
Definition notify (observer : bool) (e : Effect) : M unit :=
  if observer then emit e else ret tt.

(* [a / b].  The rationals have no Infinity and no NaN, so a zero divisor is
   reported as a fault instead of a value. *)
Definition divide (a b : Q) : M Q :=
  if Qeq_bool b 0 then throw DivisionByZero else ret (a / b)%Q.

(** ** The host: DOM node and window timers *)

Definition update_scroller (f : HTMLDivElement -> HTMLDivElement) : M unit :=
  modify (fun s => set_scroller (f (scroller s)) s).

Definition hasPointerCapture (id : Z) (el : HTMLDivElement) : bool :=
  existsb (Z.eqb id) (pointerCapture el).

Definition setPointerCapture (id : Z) (el : HTMLDivElement) : HTMLDivElement :=
  set_pointerCapture (id :: pointerCapture el) el.

Definition releasePointerCapture (id : Z) (el : HTMLDivElement) : HTMLDivElement :=
  set_pointerCapture (filter (fun j => negb (Z.eqb id j)) (pointerCapture el)) el.

(* window.setTimeout(callback, delay): the only callback this component ever
   registers is the settle callback, so a pending timeout is its handle and
   its deadline. *)
Definition setTimeout (delay : N) : M nat := fun s =>
  let h := nextHandle s in
  mkOutcome
    (set_nextHandle (S h) (set_timeouts (timeouts s ++ [(h, (now s + delay)%N)]) s))
    [] (Normal h).

Definition clearTimeout (h : nat) : M unit :=
  modify (fun s => set_timeouts (filter (fun t => negb (Nat.eqb (fst t) h)) (timeouts s)) s).

(** ** The component

    One render's closures over [props].  Early [return]s of the source are the
    [ret tt] branches. *)

Section Component.

Variable props : NativeProps.

(* Math.max(0, pageCount - 1) *)
Definition lastIndex : Z := Math.max 0 (Z.of_nat (pageCount props) - 1).

Record Metrics := { extent : Q; step : Q; raw : Q }.

(* function getMetrics(): [scrollerRef.current!] is dereferenced unguarded.
   [pageMargin || 0] is [pageMargin] on this number model. *)
Definition getMetrics : M Metrics :=
  s <- get ;;
  if negb (scrollerRef s) then throw NullDereference else
  let el := scroller s in
  let extent := inject_Z (clientWidth el) in
  let step := (extent + pageMargin props)%Q in
  let raw := Math.abs (scrollLeft el) in
  ret {| extent := extent; step := step; raw := raw |}.

(* function scrollTo(index, animated) *)
Definition scrollTo (index : Z) (animated : bool) : M unit :=
  s <- get ;;
  if negb (scrollerRef s) then ret tt else
  let el := scroller s in
  let extent := inject_Z (clientWidth el) in
  let step := (extent + pageMargin props)%Q in
  let i := clamp index 0 lastIndex in
  let pos := (inject_Z i * step)%Q in
  let left := match layoutDirection props with rtl => (- pos)%Q | ltr => pos end in
  emit (ScrollTo left (if animated then behavior_smooth else behavior_auto)) ;;
  if negb (currentIndexRef s =? i) then
    modify (set_currentIndexRef i) ;;
    notify (onPageSelected props) (PageSelected i)
  else ret tt.

(* function emitState(s) *)
Definition emitState (st : PageScrollState) : M unit :=
  notify (onPageScrollStateChanged props) (PageScrollStateChanged st).

(* function clearSettleTimer() *)
Definition clearSettleTimer : M unit :=
  s <- get ;;
  match settleTimer s with
  | Some h => clearTimeout h ;; modify (set_settleTimer None)
  | None => ret tt
  end.

(* function emitPageScroll() *)
Definition emitPageScroll : M unit :=
  if negb (onPageScroll props) then ret tt else
  m <- getMetrics ;;
  if Qeq_bool (step m) 0 then ret tt else
  f <- divide (raw m) (step m) ;;
  let position := Math.floor f in
  let offset := clamp (f - inject_Z position)%Q 0%Q 1%Q in
  emit (PageScroll position offset).

(* function snapToNearest(animated) *)
Definition snapToNearest (animated : bool) : M unit :=
  m <- getMetrics ;;
  if Qeq_bool (step m) 0 then ret tt else
  q <- divide (raw m) (step m) ;;
  let idx := clamp (Math.round q) 0 lastIndex in
  scrollTo idx animated.

(* The closure handed to window.setTimeout in startSettleTimer. *)
Definition settleCallback : M unit :=
  emitState settling ;;
  snapToNearest true ;;
  emitState idle.

(* function startSettleTimer() *)
Definition startSettleTimer : M unit :=
  clearSettleTimer ;;
  h <- setTimeout 120 ;;
  modify (set_settleTimer (Some h)).

(* const onScroll = () => ... *)
Definition onScroll : M unit :=
  match orientation props with
  | vertical => ret tt
  | horizontal =>
      emitPageScroll ;;
      s <- get ;;
      if negb (draggingRef s) then startSettleTimer else ret tt
  end.

(* const onPointerDown = (e) => ...  There is no guard on draggingRef.
   [el.setPointerCapture] is taken to succeed. *)
Definition onPointerDown (e : PointerEvent) : M unit :=
  match orientation props with
  | vertical => ret tt
  | horizontal =>
      s <- get ;;
      if negb (scrollEnabledRef s) then ret tt else
      if negb (scrollerRef s) then ret tt else
      modify (set_draggingRef true) ;;
      emitState dragging ;;
      clearSettleTimer ;;
      modify (fun s => set_restoreRef
                (Some {| userSelect := body_userSelect s;
                         cursor := style_cursor (scroller s) |}) s) ;;
      modify (set_body_userSelect "none"%string) ;;
      update_scroller (set_style_cursor "grabbing"%string) ;;
      update_scroller (setPointerCapture (pointerId e)) ;;
      modify (fun s => set_startRef
                (Some {| start_x := clientX e; start_sl := scrollLeft (scroller s) |}) s)
  end.

(* const onPointerMove = (e) => ...  The assignment to [el.scrollLeft] is taken
   as it is written; a browser may clamp the value to the scrollable range. *)
Definition onPointerMove (e : PointerEvent) : M unit :=
  match orientation props with
  | vertical => ret tt
  | horizontal =>
      s <- get ;;
      if negb (draggingRef s) then ret tt else
      match scrollerRef s, startRef s with
      | true, Some start =>
          let dx := (clientX e - start_x start)%Q in
          let dir := match layoutDirection props with rtl => (-1)%Q | ltr => 1%Q end in
          update_scroller (set_scrollLeft (start_sl start - dx * dir)%Q) ;;
          emitPageScroll
      | _, _ => ret tt
      end
  end.

(* const endDrag = (e) => ... *)
Definition endDrag (e : PointerEvent) : M unit :=
  match orientation props with
  | vertical => ret tt
  | horizontal =>
      s <- get ;;
      if negb (draggingRef s) then ret tt else
      let el := scrollerRef s in
      (if el && hasPointerCapture (pointerId e) (scroller s)
       then update_scroller (releasePointerCapture (pointerId e))
       else ret tt) ;;
      modify (set_draggingRef false) ;;
      emitState settling ;;
      snapToNearest true ;;
      emitState idle ;;
      s' <- get ;;
      (match restoreRef s' with
       | Some r =>
           if el then
             modify (set_body_userSelect (userSelect r)) ;;
             update_scroller (set_style_cursor (cursor r)) ;;
             modify (set_restoreRef None)
           else ret tt
       | None => ret tt
       end) ;;
      modify (set_startRef None)
  end.

Definition onPointerUp (e : PointerEvent) : M unit := endDrag e.
Definition onPointerCancel (e : PointerEvent) : M unit := endDrag e.

(* The imperative handle. *)
Definition setPage (index : Z) : M unit := scrollTo index true.
Definition setPageWithoutAnimation (index : Z) : M unit := scrollTo index false.
Definition setScrollEnabled (enabled : bool) : M unit :=
  modify (set_scrollEnabledRef enabled).

(* The mount effect's requestAnimationFrame callback. *)
Definition initialFrame : M unit := scrollTo (initialPage props) false.

(** ** The event loop

    Every handler call is one task: a fault ends the task, is reported, and
    the next task runs on the state the faulting one left behind. *)

Inductive Input :=
| AnimationFrame
| SetPage (index : Z)
| SetPageWithoutAnimation (index : Z)
| SetScrollEnabled (enabled : bool)
| Scrolled (sl : Q)                  (* scrollLeft became [sl]; scroll event *)
| PointerDown (e : PointerEvent)
| PointerMove (e : PointerEvent)
| PointerUp (e : PointerEvent)
| PointerCancel (e : PointerEvent)
| Layout (width : Z) (sl : Q)        (* the host resized or moved the scroller *)
| Elapse (d : N).                    (* [d] milliseconds pass *)

Definition task (m : M unit) (s : Pager) : Pager * list Effect :=
  let r := m s in
  (final r,
   emitted r ++ match completion r with
                | Normal _ => []
                | Abrupt f => [Uncaught f]
                end).

Definition pending (h : nat) (s : Pager) : bool :=
  existsb (fun t => Nat.eqb (fst t) h) (timeouts s).

(* Run the callbacks of the timeouts in [due], oldest first; a timeout that
   was cleared in the meantime does not run. *)
Fixpoint fire (due : list (nat * N)) (s : Pager) : Pager * list Effect :=
  match due with
  | [] => (s, [])
  | (h, _) :: rest =>
      if pending h s then
        let (s1, o1) := task (clearTimeout h ;; settleCallback) s in
        let (s2, o2) := fire rest s1 in
        (s2, o1 ++ o2)
      else fire rest s
  end.

Definition elapse (d : N) (s : Pager) : Pager * list Effect :=
  let t := (now s + d)%N in
  fire (filter (fun x => (snd x <=? t)%N) (timeouts s)) (set_now t s).

Definition dispatch (i : Input) (s : Pager) : Pager * list Effect :=
  match i with
  | AnimationFrame => task initialFrame s
  | SetPage index => task (setPage index) s
  | SetPageWithoutAnimation index => task (setPageWithoutAnimation index) s
  | SetScrollEnabled enabled => task (setScrollEnabled enabled) s
  | Scrolled sl => task (update_scroller (set_scrollLeft sl) ;; onScroll) s
  | PointerDown e => task (onPointerDown e) s
  | PointerMove e => task (onPointerMove e) s
  | PointerUp e => task (onPointerUp e) s
  | PointerCancel e => task (onPointerCancel e) s
  | Layout width sl =>
      (set_scroller {| clientWidth := width; scrollLeft := sl;
                       style_cursor := style_cursor (scroller s);
                       pointerCapture := pointerCapture (scroller s) |} s, [])
  | Elapse d => elapse d s
  end.

Fixpoint run (inputs : list Input) (s : Pager) : Pager * list Effect :=
  match inputs with
  | [] => (s, [])
  | i :: rest =>
      let (s1, o1) := dispatch i s in
      let (s2, o2) := run rest s1 in
      (s2, o1 ++ o2)
  end.

(* The refs as the first render creates them, on a host that has the scroller
   [el] and body style [us] and no timeout pending. *)
Definition mount (el : HTMLDivElement) (us : string) : Pager :=
  {| scrollerRef := true;
     scrollEnabledRef := scrollEnabled props;
     draggingRef := false;
     startRef := None;
     restoreRef := None;
     currentIndexRef := initialPage props;
     settleTimer := None;
     scroller := el;
     body_userSelect := us;
     timeouts := [];
     nextHandle := 0%nat;
     now := 0%N |}.

End Component.

(** ** Vocabulary of the properties *)

Section Vocabulary.

Variable props : NativeProps.

(* [step] and [raw] as getMetrics computes them from the scroller. *)
Definition stepOf (s : Pager) : Q :=
  (inject_Z (clientWidth (scroller s)) + pageMargin props)%Q.

Definition rawOf (s : Pager) : Q := Math.abs (scrollLeft (scroller s)).

(* The layout-direction sign scrollTo applies to a raw offset. *)
Definition signed (pos : Q) : Q :=
  match layoutDirection props with rtl => (- pos)%Q | ltr => pos end.

Definition behaviorOf (animated : bool) : ScrollBehavior :=
  if animated then behavior_smooth else behavior_auto.

(* The clamped target index of a navigation to [index]. *)
Definition target (index : Z) : Z := clamp index 0 (lastIndex props).

(* The index snapToNearest passes to scrollTo. *)
Definition snapIndex (s : Pager) : Z :=
  clamp (Math.round (rawOf s / stepOf s)) 0 (lastIndex props).


(* What emitState hands to the observer, if there is one. *)
Definition stateNote (st : PageScrollState) : list Effect :=
  if onPageScrollStateChanged props then [PageScrollStateChanged st] else [].

End Vocabulary.

(* The state in which endDrag calls snapToNearest: capture released,
   draggingRef cleared. *)
Definition released (e : PointerEvent) (s : Pager) : Pager :=
  set_draggingRef false
    (if hasPointerCapture (pointerId e) (scroller s)
     then set_scroller (releasePointerCapture (pointerId e) (scroller s)) s
     else s).

(* The restore step that ends endDrag, on a mounted scroller. *)
Definition restored (s : Pager) : Pager :=
  set_startRef None
    match restoreRef s with
    | Some r =>
        set_restoreRef None
          (set_scroller (set_style_cursor (cursor r) (scroller s))
             (set_body_userSelect (userSelect r) s))
    | None => s
    end.

(* The onPageScrollStateChanged events of a log, in order. *)
Fixpoint stateEvents (log : list Effect) : list PageScrollState :=
  match log with
  | [] => []
  | PageScrollStateChanged st :: rest => st :: stateEvents rest
  | _ :: rest => stateEvents rest
  end.

(* The onPageSelected events of a log, in order. *)
Fixpoint selections (log : list Effect) : list Z :=
  match log with
  | [] => []
  | PageSelected i :: rest => i :: selections rest
  | _ :: rest => selections rest
  end.

(* The onPageScroll events of a log, in order. *)
Fixpoint pageScrolls (log : list Effect) : list (Z * Q) :=
  match log with
  | [] => []
  | PageScroll p o :: rest => (p, o) :: pageScrolls rest
  | _ :: rest => pageScrolls rest
  end.

(* The scroll commands of a log, in order. *)
Fixpoint scrollCommands (log : list Effect) : list (Q * ScrollBehavior) :=
  match log with
  | [] => []
  | ScrollTo x b :: rest => (x, b) :: scrollCommands rest
  | _ :: rest => scrollCommands rest
  end.

(* Where the scroller comes to rest once the host has carried out the
   commands of a log: the raw offset of the last one. *)
Definition restingRaw (log : list Effect) : option Q :=
  match rev (scrollCommands log) with
  | [] => None
  | (x, _) :: _ => Some (Math.abs x)
  end.

(* Every pending timeout is the one settleTimer.current names, and there is
   at most one. *)
Definition timers_ok (s : Pager) : Prop :=
  (forall t, In t (timeouts s) -> settleTimer s = Some (fst t))
  /\ (List.length (timeouts s) <= 1)%nat.

(* Inputs that neither begin nor end a drag session. *)
Definition midDrag (i : Input) : bool :=
  match i with
  | PointerDown _ | PointerUp _ | PointerCancel _ => false
  | _ => true
  end.

(* A pointer-up or a pointer-cancel. *)
Definition release (i : Input) : bool :=
  match i with
  | PointerUp _ | PointerCancel _ => true
  | _ => false
  end.

(* Passive scroll ticks, each followed by a pause. *)
Definition ticks (l : list (Q * N)) : list Input :=
  flat_map (fun t => [Scrolled (fst t); Elapse (snd t)]) l.

(** ** Vocabulary of the trace properties *)

(* No selection repeats the index before it: [prev] is the committed index
   the log starts from. *)
Fixpoint changes (prev : Z) (l : list Z) : bool :=
  match l with
  | [] => true
  | x :: rest => negb (prev =? x) && changes x rest
  end.

(* A scroll-state log made of the blocks [dragging] and [settling; idle]. *)
Fixpoint bracketed (l : list PageScrollState) : bool :=
  match l with
  | [] => true
  | dragging :: rest => bracketed rest
  | settling :: idle :: rest => bracketed rest
  | _ => false
  end.

(* The refs of a drag session agree with draggingRef: while it is set the
   start and the restore values are saved and the suppressed styles are in
   place, otherwise nothing is saved. *)
Definition session_consistent (s : Pager) : Prop :=
  if draggingRef s
  then restoreRef s <> None /\ startRef s <> None
       /\ body_userSelect s = "none"%string
       /\ style_cursor (scroller s) = "grabbing"%string
  else restoreRef s = None /\ startRef s = None.

(* [setScrollEnabled(true)] *)
Definition enables (i : Input) : bool :=
  match i with
  | SetScrollEnabled true => true
  | _ => false
  end.

(* The inputs that reach the component through the scroller's DOM events. *)
Definition domEvent (i : Input) : bool :=
  match i with
  | Scrolled _ | PointerDown _ | PointerMove _ | PointerUp _ | PointerCancel _ => true
  | _ => false
  end.

(* [dir] of onPointerMove. *)
Definition dragDirection (props : NativeProps) : Q :=
  match layoutDirection props with rtl => (-1)%Q | ltr => 1%Q end.

(* The faults a log reports. *)
Fixpoint faults (log : list Effect) : list Fault :=
  match log with
  | [] => []
  | Uncaught f :: rest => f :: faults rest
  | _ :: rest => faults rest
  end.

(* The three inputs that navigate: the mount frame and the two setPage
   commands. *)
Definition navigates (i : Input) : bool :=
  match i with
  | AnimationFrame | SetPage _ | SetPageWithoutAnimation _ => true
  | _ => false
  end.

(* What a piece of log says about onPageSelected, from the state [s] it
   starts in to the state [s'] it ends in. *)
Definition selects (props : NativeProps) (s s' : Pager) (log : list Effect) : Prop :=
  changes (currentIndexRef s) (selections log) = true
  /\ Forall (fun k => 0 <= k <= lastIndex props) (selections log)
  /\ (onPageSelected props = true ->
      last (selections log) (currentIndexRef s) = currentIndexRef s')
  /\ (onPageSelected props = false -> selections log = []).

(* [x] is the signed offset of a page boundary of the pager in state [s]. *)
Definition atBoundary (props : NativeProps) (s : Pager) (x : Q) : Prop :=
  exists k, 0 <= k <= lastIndex props
            /\ x = signed props (inject_Z k * stepOf props s).

(* Text selection is suppressed on the body and nothing else is saved to
   restore. *)
Definition suppressed (s : Pager) : Prop :=
  body_userSelect s = "none"%string
  /\ forall r, restoreRef s = Some r -> userSelect r = "none"%string.

(* The state a passive scroll tick at offset [x] leaves: the scroller at [x]
   and one fresh settle timeout, due 120 ms from now. *)
Definition armed (x : Q) (s : Pager) : Pager :=
  set_settleTimer (Some (nextHandle s))
    (set_nextHandle (S (nextHandle s))
       (set_timeouts [(nextHandle s, (now s + 120)%N)]
          (set_scroller (set_scrollLeft x (scroller s)) s))).

(* The state once React has detached the scroller: [scrollerRef.current] is
   null, everything else is as it was. *)
Definition detached (s : Pager) : Pager :=
  {| scrollerRef := false; scrollEnabledRef := scrollEnabledRef s;
     draggingRef := draggingRef s; startRef := startRef s;
     restoreRef := restoreRef s; currentIndexRef := currentIndexRef s;
     settleTimer := settleTimer s; scroller := scroller s;
     body_userSelect := body_userSelect s; timeouts := timeouts s;
     nextHandle := nextHandle s; now := now s |}.

(* Three pages laid out vertically. *)
Definition verticalPages : NativeProps :=
  {| scrollEnabled := true; layoutDirection := ltr; initialPage := 0;
     orientation := vertical; pageMargin := 0;
     onPageScroll := true; onPageSelected := true;
     onPageScrollStateChanged := true; pageCount := 3 |}.

(* No page at all, and [initialPage] asks for the third. *)
Definition noPages : NativeProps :=
  {| scrollEnabled := true; layoutDirection := ltr; initialPage := 2;
     orientation := horizontal; pageMargin := 0;
     onPageScroll := true; onPageSelected := true;
     onPageScrollStateChanged := true; pageCount := 0 |}.

(** ** Renders

    The component function runs again at every render: [useRef] hands back
    the refs of the first render, nothing is written to them, and the
    handlers are created anew over the new props and the new [pageCount].
    DOM events and the imperative handle reach the handlers of the latest
    render; the mount effect's frame callback belongs to the first render,
    and a timeout runs the closure of the render that armed it. *)












(** ** Concrete pagers for the examples *)

(* Three pages, no margin, every observer supplied. *)
Definition threePages : NativeProps :=
  {| scrollEnabled := true; layoutDirection := ltr; initialPage := 0;
     orientation := horizontal; pageMargin := 0;
     onPageScroll := true; onPageSelected := true;
     onPageScrollStateChanged := true; pageCount := 3 |}.

Definition threePagesRtl : NativeProps :=
  {| scrollEnabled := true; layoutDirection := rtl; initialPage := 0;
     orientation := horizontal; pageMargin := 0;
     onPageScroll := true; onPageSelected := true;
     onPageScrollStateChanged := true; pageCount := 3 |}.


(* Three pages with a margin of 10 between them. *)
Definition withMargin : NativeProps :=
  {| scrollEnabled := true; layoutDirection := ltr; initialPage := 0;
     orientation := horizontal; pageMargin := 10;
     onPageScroll := true; onPageSelected := true;
     onPageScrollStateChanged := true; pageCount := 3 |}.

Definition scrollerAt (width : Z) (offset : Q) : HTMLDivElement :=
  {| clientWidth := width; scrollLeft := offset;
     style_cursor := "grab"; pointerCapture := [] |}.

Definition pointerAt (x : Q) : PointerEvent := {| pointerId := 1; clientX := x |}.

(** ** Symbolic execution of handlers *)

Ltac msimpl :=
  repeat progress
    (cbv beta iota zeta delta
       [bind ret get modify emit throw notify update_scroller
        set_scrollEnabledRef set_draggingRef set_startRef set_restoreRef
        set_currentIndexRef set_settleTimer set_scroller set_body_userSelect
        set_timeouts set_nextHandle set_now
        set_scrollLeft set_style_cursor set_pointerCapture
        setPointerCapture releasePointerCapture setTimeout clearTimeout] in *;
     cbn [final emitted completion app negb andb orb fst snd
          scrollerRef scrollEnabledRef draggingRef startRef restoreRef
          currentIndexRef settleTimer scroller body_userSelect timeouts
          nextHandle now
          clientWidth scrollLeft style_cursor pointerCapture
          extent step raw userSelect cursor start_x start_sl] in *).

(* Replace a state variable by a record of its fields. *)
Ltac concrete s :=
  let el := fresh "el" in
  destruct s as [? ? ? ? ? ? ? el ? ? ? ?]; destruct el as [? ? ? ?];
  msimpl; subst.

Ltac branch :=
  match goal with
  | H : ?b = _ |- context [if ?b then _ else _] => rewrite H
  | H : ?b = _ |- context [match ?b with _ => _ end] => rewrite H
  | |- context [match orientation ?p with _ => _ end] =>
      destruct (orientation p) eqn:?
  | |- context [match layoutDirection ?p with _ => _ end] =>
      destruct (layoutDirection p) eqn:?
  | |- context [if ?b then _ else _] => destruct b eqn:?
  | |- context [match ?o with Some _ => _ | None => _ end] => destruct o eqn:?
  end.

Ltac handlers :=
  unfold task, initialFrame, setPage, setPageWithoutAnimation, setScrollEnabled,
    onPointerUp, onPointerCancel, endDrag, onPointerMove, onPointerDown,
    onScroll, startSettleTimer, settleCallback, snapToNearest, emitPageScroll,
    clearSettleTimer, emitState, scrollTo, getMetrics, divide in *.

Ltac exec := handlers; msimpl; repeat (branch; msimpl).

(** ** Arithmetic of clamp, floor and round *)

Lemma clamp_Z (v a b : Z) : clamp v a b = Z.max a (Z.min b v).
Proof. reflexivity. Qed.

Lemma clamp_Q (v a b : Q) : clamp v a b = Qmax a (Qmin b v).
Proof. reflexivity. Qed.

Lemma lastIndex_eq (props : NativeProps) :
  lastIndex props = Z.max 0 (Z.of_nat (pageCount props) - 1).
Proof. reflexivity. Qed.

Lemma lastIndex_nonneg (props : NativeProps) : 0 <= lastIndex props.
Proof. rewrite lastIndex_eq. lia. Qed.

Lemma target_range (props : NativeProps) (index : Z) :
  0 <= target props index <= lastIndex props.
Proof.
  unfold target. rewrite clamp_Z.
  pose proof (lastIndex_nonneg props). lia.
Qed.

Lemma target_fixed (props : NativeProps) (index : Z) :
  0 <= index <= lastIndex props -> target props index = index.
Proof. intros H. unfold target. rewrite clamp_Z. lia. Qed.

Lemma snapIndex_range (props : NativeProps) (s : Pager) :
  0 <= snapIndex props s <= lastIndex props.
Proof.
  unfold snapIndex. rewrite clamp_Z.
  pose proof (lastIndex_nonneg props). lia.
Qed.

Lemma rawOf_nonneg (s : Pager) : (0 <= rawOf s)%Q.
Proof. apply Qabs_nonneg. Qed.

Lemma quotient_nonneg (a b : Q) : (0 <= a)%Q -> (0 < b)%Q -> (0 <= a / b)%Q.
Proof.
  intros Ha Hb. unfold Qdiv.
  apply Qmult_le_0_compat; [exact Ha|].
  apply Qlt_le_weak, Qinv_lt_0_compat, Hb.
Qed.

Lemma floor_nonneg (q : Q) : (0 <= q)%Q -> 0 <= Math.floor q.
Proof.
  intros H. unfold Math.floor.
  change 0 with (Qfloor 0). apply Qfloor_resp_le, H.
Qed.

Lemma round_nonneg (q : Q) : (0 <= q)%Q -> 0 <= Math.round q.
Proof.
  intros H. unfold Math.round.
  change 0 with (Qfloor 0). apply Qfloor_resp_le.
  apply Qle_trans with q; [exact H|].
  rewrite <- (Qplus_0_r q) at 1.
  apply Qplus_le_r. discriminate.
Qed.

Lemma Qeq_bool_pos (q : Q) : (0 < q)%Q -> Qeq_bool q 0 = false.
Proof.
  intros H. destruct (Qeq_bool q 0) eqn:E; [|reflexivity].
  apply Qeq_bool_eq in E. rewrite E in H. discriminate H.
Qed.

(* The fractional part needs no clamping on the rationals. *)
Lemma fraction_clamped (f : Q) :
  let o := clamp (f - inject_Z (Math.floor f))%Q 0%Q 1%Q in
  (o == f - inject_Z (Math.floor f))%Q /\ (0 <= o)%Q /\ (o <= 1)%Q.
Proof.
  unfold Math.floor. cbv zeta. rewrite clamp_Q.
  pose proof (Qfloor_le f) as Hlo.
  pose proof (Qlt_floor f) as Hhi. rewrite inject_Z_plus in Hhi.
  change (inject_Z 1) with 1%Q in Hhi.
  assert (H0 : (0 <= f - inject_Z (Qfloor f))%Q) by lra.
  assert (H1 : (f - inject_Z (Qfloor f) <= 1)%Q) by lra.
  rewrite (Q.min_r _ _ H1), (Q.max_r _ _ H0).
  split; [reflexivity|]. split; assumption.
Qed.

(** ** Equations of the handlers on a mounted scroller *)

Lemma bind_normal {A B} (m : M A) (k : A -> M B) (s : Pager) (a : A) :
  completion (m s) = Normal a ->
  bind m k s =
  mkOutcome (final (k a (final (m s))))
            (emitted (m s) ++ emitted (k a (final (m s))))
            (completion (k a (final (m s)))).
Proof.
  unfold bind. destruct (m s) as [s1 o1 c]. cbn. intros ->.
  destruct (k a s1); reflexivity.
Qed.

Lemma bind_abrupt {A B} (m : M A) (k : A -> M B) (s : Pager) (f : Fault) :
  completion (m s) = Abrupt f ->
  bind m k s = mkOutcome (final (m s)) (emitted (m s)) (Abrupt f).
Proof.
  unfold bind. destruct (m s) as [s1 o1 c]. cbn. intros ->. reflexivity.
Qed.

Section Equations.

Variable props : NativeProps.

Lemma getMetrics_mounted (s : Pager) :
  scrollerRef s = true ->
  getMetrics props s =
  mkOutcome s []
    (Normal {| extent := inject_Z (clientWidth (scroller s));
               step := stepOf props s; raw := rawOf s |}).
Proof. intros Hm. unfold getMetrics. msimpl. rewrite Hm. reflexivity. Qed.

Lemma scrollTo_unmounted (s : Pager) (index : Z) (animated : bool) :
  scrollerRef s = false ->
  scrollTo props index animated s = mkOutcome s [] (Normal tt).
Proof. intros Hm. unfold scrollTo. msimpl. rewrite Hm. reflexivity. Qed.

Lemma scrollTo_mounted (s : Pager) (index : Z) (animated : bool) :
  scrollerRef s = true ->
  scrollTo props index animated s =
  mkOutcome
    (if currentIndexRef s =? target props index then s
     else set_currentIndexRef (target props index) s)
    (ScrollTo (signed props (inject_Z (target props index) * stepOf props s))
              (behaviorOf animated)
     :: if currentIndexRef s =? target props index then []
        else if onPageSelected props then [PageSelected (target props index)]
        else [])
    (Normal tt).
Proof.
  intros Hm. unfold scrollTo, signed, stepOf, behaviorOf, target.
  msimpl. rewrite Hm. msimpl.
  destruct (currentIndexRef s =? clamp index 0 (lastIndex props)); msimpl;
    [reflexivity|].
  destruct (onPageSelected props); msimpl; rewrite ?Hm; reflexivity.
Qed.

Lemma snapToNearest_mounted (s : Pager) (animated : bool) :
  scrollerRef s = true ->
  snapToNearest props animated s =
  if Qeq_bool (stepOf props s) 0 then mkOutcome s [] (Normal tt)
  else scrollTo props (snapIndex props s) animated s.
Proof.
  intros Hm. unfold snapToNearest, bind at 1.
  rewrite (getMetrics_mounted s Hm). msimpl.
  unfold divide. destruct (Qeq_bool (stepOf props s) 0) eqn:E; [reflexivity|].
  msimpl. fold (snapIndex props s).
  rewrite (scrollTo_mounted s _ animated Hm). reflexivity.
Qed.

Lemma emitPageScroll_mounted (s : Pager) :
  scrollerRef s = true ->
  emitPageScroll props s =
  mkOutcome s
    (if negb (onPageScroll props) || Qeq_bool (stepOf props s) 0 then []
     else let f := (rawOf s / stepOf props s)%Q in
          [PageScroll (Math.floor f)
                      (clamp (f - inject_Z (Math.floor f))%Q 0%Q 1%Q)])
    (Normal tt).
Proof.
  intros Hm. unfold emitPageScroll.
  destruct (onPageScroll props); [|reflexivity]. cbn [negb orb].
  unfold bind at 1. rewrite (getMetrics_mounted s Hm). msimpl.
  unfold divide. destruct (Qeq_bool (stepOf props s) 0); reflexivity.
Qed.

End Equations.

Section DragEnd.

Variable props : NativeProps.

Lemma snapToNearest_completes (s : Pager) (animated : bool) :
  scrollerRef s = true ->
  completion (snapToNearest props animated s) = Normal tt.
Proof.
  intros Hm. rewrite (snapToNearest_mounted props s animated Hm).
  destruct (Qeq_bool (stepOf props s) 0); [reflexivity|].
  rewrite (scrollTo_mounted props s _ animated Hm). reflexivity.
Qed.

Lemma released_mounted (e : PointerEvent) (s : Pager) :
  scrollerRef (released e s) = scrollerRef s.
Proof. unfold released. destruct (hasPointerCapture _ _); reflexivity. Qed.

Lemma endDrag_dragging (s : Pager) (e : PointerEvent) :
  orientation props = horizontal ->
  draggingRef s = true ->
  scrollerRef s = true ->
  let r := snapToNearest props true (released e s) in
  endDrag props e s =
  mkOutcome (restored (final r))
    (stateNote props settling ++ emitted r ++ stateNote props idle)
    (Normal tt).
Proof.
  intros Ho Hd Hm r. subst r.
  unfold endDrag, emitState, stateNote, restored, released, hasPointerCapture.
  concrete s. rewrite Ho. msimpl.
  destruct (existsb _ _); destruct (onPageScrollStateChanged props); msimpl;
    match goal with
    | |- context [snapToNearest props true ?st] =>
        pose proof (snapToNearest_completes st true eq_refl) as Hc;
        destruct (snapToNearest props true st) as [s1 o1 c]
    end; cbn in Hc; subst c; msimpl;
    destruct (restoreRef s1); msimpl; rewrite ?app_nil_r; reflexivity.
Qed.

End DragEnd.

Lemma run_app (props : NativeProps) (a b : list Input) (s : Pager) :
  run props (a ++ b) s =
  let (s1, o1) := run props a s in
  let (s2, o2) := run props b s1 in
  (s2, o1 ++ o2).
Proof.
  revert s. induction a as [|i a IH]; intros s; cbn [run app].
  - destruct (run props b s); reflexivity.
  - destruct (dispatch props i s) as [s1 o1]. rewrite IH.
    destruct (run props a s1) as [s2 o2].
    destruct (run props b s2) as [s3 o3].
    rewrite app_assoc. reflexivity.
Qed.

Lemma stateEvents_app (a b : list Effect) :
  stateEvents (a ++ b) = stateEvents a ++ stateEvents b.
Proof.
  induction a as [|x a IH]; [reflexivity|].
  destruct x; cbn [app stateEvents]; rewrite IH; reflexivity.
Qed.

Lemma selections_app (a b : list Effect) :
  selections (a ++ b) = selections a ++ selections b.
Proof.
  induction a as [|x a IH]; [reflexivity|].
  destruct x; cbn [app selections]; rewrite IH; reflexivity.
Qed.

Lemma scrollCommands_app (a b : list Effect) :
  scrollCommands (a ++ b) = scrollCommands a ++ scrollCommands b.
Proof.
  induction a as [|x a IH]; [reflexivity|].
  destruct x; cbn [app scrollCommands]; rewrite IH; reflexivity.
Qed.

Lemma scrollCommands_stateNote (props : NativeProps) (st : PageScrollState) :
  scrollCommands (stateNote props st) = [].
Proof. unfold stateNote. destruct (onPageScrollStateChanged props); reflexivity. Qed.

Lemma signed_abs (props : NativeProps) (q : Q) :
  (0 <= q)%Q -> (Math.abs (signed props q) == q)%Q.
Proof.
  intros H. unfold signed, Math.abs.
  destruct (layoutDirection props).
  - apply Qabs_pos, H.
  - rewrite Qabs_opp. apply Qabs_pos, H.
Qed.

Lemma boundary_nonneg (props : NativeProps) (s : Pager) (i : Z) :
  0 <= i -> (0 <= stepOf props s)%Q -> (0 <= inject_Z i * stepOf props s)%Q.
Proof.
  intros Hi Hs. apply Qmult_le_0_compat; [|exact Hs].
  change 0%Q with (inject_Z 0). rewrite <- Zle_Qle. exact Hi.
Qed.

(** ** C1: snap to the nearest page *)

Section SnapToNearest.

Variable props : NativeProps.

Lemma snap_commands (s : Pager) (animated : bool) :
  scrollerRef s = true ->
  Qeq_bool (stepOf props s) 0 = false ->
  scrollCommands (emitted (snapToNearest props animated s)) =
  [(signed props (inject_Z (snapIndex props s) * stepOf props s),
    behaviorOf animated)].
Proof.
  intros Hm Hs. rewrite (snapToNearest_mounted props s animated Hm), Hs.
  rewrite (scrollTo_mounted props s _ animated Hm). cbn [emitted scrollCommands].
  fold (snapIndex props s) (target props (snapIndex props s)).
  rewrite (target_fixed props _ (snapIndex_range props s)).
  destruct (currentIndexRef s =? snapIndex props s); [reflexivity|].
  destruct (onPageSelected props); reflexivity.
Qed.

Lemma released_metrics (e : PointerEvent) (s : Pager) :
  stepOf props (released e s) = stepOf props s
  /\ rawOf (released e s) = rawOf s
  /\ scrollerRef (released e s) = scrollerRef s.
Proof.
  unfold released, stepOf, rawOf.
  destruct (hasPointerCapture (pointerId e) (scroller s)); auto.
Qed.

Lemma release_commands (s : Pager) (e : PointerEvent) :
  orientation props = horizontal ->
  draggingRef s = true ->
  scrollerRef s = true ->
  Qeq_bool (stepOf props s) 0 = false ->
  scrollCommands (emitted (endDrag props e s)) =
  [(signed props (inject_Z (snapIndex props s) * stepOf props s),
    behavior_smooth)].
Proof.
  intros Ho Hd Hm Hs.
  destruct (released_metrics e s) as (E1 & E2 & E3).
  rewrite (endDrag_dragging props s e Ho Hd Hm). cbn [emitted].
  rewrite !scrollCommands_app, !scrollCommands_stateNote, app_nil_r.
  cbn [app]. rewrite snap_commands.
  - unfold snapIndex. rewrite E1, E2. reflexivity.
  - rewrite E3. exact Hm.
  - rewrite E1. exact Hs.
Qed.

(** C1 (amended).  On a mounted scroller with [step > 0], snapToNearest
    issues exactly one scroll command, to the raw offset [idx * step]
    (negated under RTL) where [idx] is [round(raw/step)] clamped to
    [0, max(0, PageCount-1)]; the scroller therefore comes to rest at
    [idx * step], after a pointer-up and a pointer-cancel alike.  This is
    [round(raw/step) * step] whenever [round(raw/step)] does not exceed
    [max(0, PageCount-1)].  When [step == 0] the snap is a no-op. *)
Theorem snap_rests_on_clamped_boundary (s : Pager) (animated : bool) :
  scrollerRef s = true ->
  let idx := snapIndex props s in
  let rounded := Math.round (rawOf s / stepOf props s) in
  ((0 < stepOf props s)%Q ->
     scrollCommands (emitted (snapToNearest props animated s)) =
       [(signed props (inject_Z idx * stepOf props s), behaviorOf animated)]
     /\ (exists r, restingRaw (emitted (snapToNearest props animated s)) = Some r
                   /\ (r == inject_Z idx * stepOf props s)%Q)
     /\ (forall i e, orientation props = horizontal -> draggingRef s = true ->
           i = PointerUp e \/ i = PointerCancel e ->
           exists r, restingRaw (snd (dispatch props i s)) = Some r
                     /\ (r == inject_Z idx * stepOf props s)%Q)
     /\ idx = clamp rounded 0 (Z.max 0 (Z.of_nat (pageCount props) - 1))
     /\ 0 <= rounded
     /\ (rounded <= Z.max 0 (Z.of_nat (pageCount props) - 1) -> idx = rounded))
  /\ ((stepOf props s == 0)%Q ->
      snapToNearest props animated s = mkOutcome s [] (Normal tt)).
Proof.
  intros Hm idx rounded. split.
  - intros Hpos. pose proof (Qlt_le_weak _ _ Hpos) as Hnn.
    pose proof (Qeq_bool_pos _ Hpos) as Hs.
    pose proof (snapIndex_range props s) as Hr.
    assert (Habs : (Math.abs (signed props (inject_Z idx * stepOf props s))
                    == inject_Z idx * stepOf props s)%Q).
    { apply signed_abs, boundary_nonneg; [apply Hr | exact Hnn]. }
    assert (Hrd : 0 <= rounded).
    { apply round_nonneg, quotient_nonneg; [apply rawOf_nonneg | exact Hpos]. }
    split; [apply snap_commands; assumption|].
    split.
    { unfold restingRaw. rewrite snap_commands by assumption. cbn [rev app].
      eexists. split; [reflexivity | exact Habs]. }
    split.
    { intros i e Ho Hd [-> | ->]; cbn [dispatch]; unfold task, onPointerUp,
        onPointerCancel; cbn [snd]; unfold restingRaw;
        rewrite scrollCommands_app, (release_commands s e Ho Hd Hm Hs);
        rewrite (endDrag_dragging props s e Ho Hd Hm); cbn [completion];
        cbn [scrollCommands app rev]; eexists;
        (split; [reflexivity | exact Habs]). }
    split; [reflexivity|].
    split; [exact Hrd|].
    intros Hle. unfold idx, snapIndex. fold rounded. rewrite clamp_Z.
    rewrite lastIndex_eq. lia.
  - intros Hz. rewrite (snapToNearest_mounted props s animated Hm).
    apply Qeq_eq_bool in Hz. rewrite Hz. reflexivity.
Qed.

End SnapToNearest.

(** ** C2: page-selection events *)

Section Selection.

Variable props : NativeProps.

Lemma scrollTo_selections (s : Pager) (index : Z) (animated : bool) :
  scrollerRef s = true ->
  onPageSelected props = true ->
  selections (emitted (scrollTo props index animated s)) =
  (if currentIndexRef s =? target props index then [] else [target props index])
  /\ currentIndexRef (final (scrollTo props index animated s)) = target props index
  /\ scrollerRef (final (scrollTo props index animated s)) = true.
Proof.
  intros Hm Hsel. rewrite (scrollTo_mounted props s index animated Hm), Hsel.
  cbn [emitted final selections].
  destruct (currentIndexRef s =? target props index) eqn:E.
  - apply Z.eqb_eq in E. auto.
  - cbn. auto.
Qed.

(** C2.  On a mounted scroller with an onPageSelected observer, a navigation
    ([scrollTo], which setPage, setPageWithoutAnimation and snapToNearest all
    go through) fires onPageSelected if and only if the clamped target index
    differs from the committed index, with the clamped target as payload, and
    commits the target; a second setPage(k) right after a first one, and any
    setPage(k) when [k] is already committed, fires nothing. *)
Theorem selection_fires_iff_index_changes (s : Pager) (index : Z) (animated : bool) :
  scrollerRef s = true ->
  onPageSelected props = true ->
  let r := scrollTo props index animated s in
  (forall k, In (PageSelected k) (emitted r) <->
             k = target props index /\ target props index <> currentIndexRef s)
  /\ selections (emitted r) =
       (if currentIndexRef s =? target props index then [] else [target props index])
  /\ currentIndexRef (final r) = target props index
  /\ setPage props index = scrollTo props index true
  /\ setPageWithoutAnimation props index = scrollTo props index false
  /\ (Qeq_bool (stepOf props s) 0 = false ->
      snapToNearest props animated s = scrollTo props (snapIndex props s) animated s)
  /\ selections (emitted (setPage props index (final (setPage props index s)))) = []
  /\ (currentIndexRef s = index -> 0 <= index <= lastIndex props ->
      selections (snd (run props [SetPage index; SetPage index] s)) = []).
Proof.
  intros Hm Hsel r.
  destruct (scrollTo_selections s index animated Hm Hsel) as (Hs & Hc & _).
  split.
  { intros k. subst r. rewrite (scrollTo_mounted props s index animated Hm), Hsel.
    cbn [emitted].
    destruct (currentIndexRef s =? target props index) eqn:E.
    - apply Z.eqb_eq in E. split.
      + intros [H | []]. discriminate H.
      + intros [_ H]. congruence.
    - apply Z.eqb_neq in E. split.
      + intros [H | [H | []]]; [discriminate H|]. inversion H. auto.
      + intros [-> _]. right. left. reflexivity. }
  split; [exact Hs|]. split; [exact Hc|].
  split; [reflexivity|]. split; [reflexivity|].
  split.
  { intros Hz. rewrite (snapToNearest_mounted props s animated Hm), Hz. reflexivity. }
  split.
  { unfold setPage.
    destruct (scrollTo_selections s index true Hm Hsel) as (_ & Hc1 & Hm1).
    destruct (scrollTo_selections _ index true Hm1 Hsel) as (Hs2 & _ & _).
    rewrite Hs2, Hc1, Z.eqb_refl. reflexivity. }
  intros Hcur Hin. cbn [run dispatch]. unfold task, setPage.
  destruct (scrollTo_selections s index true Hm Hsel) as (Hs1 & Hc1 & Hm1).
  destruct (scrollTo_selections _ index true Hm1 Hsel) as (Hs2 & _ & _).
  rewrite (target_fixed props index Hin) in *.
  rewrite Hcur, Z.eqb_refl in Hs1. rewrite Hc1, Z.eqb_refl in Hs2.
  rewrite (scrollTo_mounted props s index true Hm) in *.
  rewrite (scrollTo_mounted props _ index true Hm1) in *.
  cbn [fst snd completion final emitted] in *.
  rewrite !selections_app, Hs1, Hs2. reflexivity.
Qed.

End Selection.

(** ** C7: out-of-range targets *)

Section Clamping.

Variable props : NativeProps.

(** C7.  With at least one page, setPage never ends abruptly, and on a
    mounted scroller it commits and scrolls to the index clamped into
    [0, pageCount-1]: 0 for a negative index such as -5, pageCount-1 for an
    index beyond the last page such as pageCount+5. *)
Theorem setPage_clamps_and_never_throws (s : Pager) (index : Z) :
  (1 <= pageCount props)%nat ->
  let last := Z.of_nat (pageCount props) - 1 in
  completion (setPage props index s) = Normal tt
  /\ completion (setPageWithoutAnimation props index s) = Normal tt
  /\ (scrollerRef s = true ->
      let r := setPage props index s in
      currentIndexRef (final r) = clamp index 0 last
      /\ 0 <= currentIndexRef (final r) <= last
      /\ (index < 0 -> currentIndexRef (final r) = 0)
      /\ (last < index -> currentIndexRef (final r) = last)
      /\ scrollCommands (emitted r) =
           [(signed props (inject_Z (clamp index 0 last) * stepOf props s),
             behavior_smooth)]
      /\ currentIndexRef (final (setPage props (-5) s)) = 0
      /\ currentIndexRef
           (final (setPage props (Z.of_nat (pageCount props) + 5) s)) = last).
Proof.
  intros Hn last.
  assert (Hlast : lastIndex props = last).
  { rewrite lastIndex_eq. unfold last. lia. }
  assert (Hc : forall a, completion (scrollTo props index a s) = Normal tt).
  { intros a. destruct (scrollerRef s) eqn:Hm.
    - rewrite (scrollTo_mounted props s index a Hm). reflexivity.
    - rewrite (scrollTo_unmounted props s index a Hm). reflexivity. }
  split; [apply Hc|]. split; [apply Hc|].
  intros Hm r.
  assert (Hi : forall i, currentIndexRef (final (setPage props i s)) = clamp i 0 last).
  { intros i. unfold setPage. rewrite (scrollTo_mounted props s i true Hm).
    cbn [final]. unfold target. rewrite Hlast.
    destruct (currentIndexRef s =? clamp i 0 last) eqn:E; [|reflexivity].
    apply Z.eqb_eq, E. }
  split; [apply Hi|].
  subst r. rewrite !Hi, !clamp_Z.
  split; [unfold last; lia|]. split; [unfold last; lia|].
  split; [unfold last; lia|].
  split.
  - unfold setPage. rewrite (scrollTo_mounted props s index true Hm).
    cbn [emitted scrollCommands]. unfold target. rewrite Hlast, !clamp_Z.
    destruct (currentIndexRef s =? _); [reflexivity|].
    destruct (onPageSelected props); reflexivity.
  - unfold last. lia.
Qed.

End Clamping.

(** ** C4 and C9: the onPageScroll pair and the zero-step guard *)

Section PageScroll.

Variable props : NativeProps.

Lemma no_division_by_zero (s : Pager) (animated : bool) :
  completion (emitPageScroll props s) <> Abrupt DivisionByZero
  /\ completion (snapToNearest props animated s) <> Abrupt DivisionByZero.
Proof.
  split; concrete s; exec; discriminate.
Qed.

(** C4 (amended).  On a mounted scroller whose extent is 0 and whose
    pageMargin is 0, so that [step = extent + pageMargin] is 0, the
    position/offset emission and the snap are no-ops: nothing is emitted and
    the state is unchanged.  In every state, whatever the extent and the
    margin, neither of them divides by zero. *)
Theorem zero_step_skips_position_math (s : Pager) (animated : bool) :
  scrollerRef s = true ->
  clientWidth (scroller s) = 0 ->
  (pageMargin props == 0)%Q ->
  (stepOf props s == 0)%Q
  /\ emitPageScroll props s = mkOutcome s [] (Normal tt)
  /\ snapToNearest props animated s = mkOutcome s [] (Normal tt)
  /\ (forall s' a',
        completion (emitPageScroll props s') <> Abrupt DivisionByZero
        /\ completion (snapToNearest props a' s') <> Abrupt DivisionByZero).
Proof.
  intros Hm Hw Hpm.
  assert (Hz : (stepOf props s == 0)%Q).
  { unfold stepOf. rewrite Hw, Hpm. reflexivity. }
  pose proof (Qeq_eq_bool _ _ Hz) as Hb.
  split; [exact Hz|]. split.
  - rewrite (emitPageScroll_mounted props s Hm), Hb, orb_true_r. reflexivity.
  - split.
    + rewrite (snapToNearest_mounted props s animated Hm), Hb. reflexivity.
    + intros s' a'. apply no_division_by_zero.
Qed.

(** C9.  On a mounted scroller with [step > 0] and an onPageScroll observer,
    emitPageScroll emits exactly one pair, with [position = floor(raw/step)],
    [position >= 0] and [0 <= offset <= 1]; the position is not clamped to
    the page range: at the raw offset [pageCount * step], which lies beyond
    [(pageCount-1) * step], the emitted position exceeds [pageCount-1]. *)
Theorem page_scroll_position_not_clamped (s : Pager) :
  scrollerRef s = true ->
  onPageScroll props = true ->
  (0 < stepOf props s)%Q ->
  let f := (rawOf s / stepOf props s)%Q in
  (exists offset,
     emitted (emitPageScroll props s) = [PageScroll (Math.floor f) offset]
     /\ 0 <= Math.floor f
     /\ (0 <= offset)%Q /\ (offset <= 1)%Q)
  /\ (exists sl,
        let s' := set_scroller (set_scrollLeft sl (scroller s)) s in
        (inject_Z (Z.of_nat (pageCount props) - 1) * stepOf props s' < rawOf s')%Q
        /\ exists position offset,
             emitted (emitPageScroll props s') = [PageScroll position offset]
             /\ Z.of_nat (pageCount props) - 1 < position).
Proof.
  intros Hm Hobs Hpos f.
  pose proof (Qeq_bool_pos _ Hpos) as Hb.
  split.
  - rewrite (emitPageScroll_mounted props s Hm), Hobs, Hb. cbn [negb orb emitted].
    eexists. split; [reflexivity|].
    split; [apply floor_nonneg, quotient_nonneg;
            [apply rawOf_nonneg | exact Hpos]|].
    apply (fraction_clamped f).
  - set (n := Z.of_nat (pageCount props)).
    exists (inject_Z n * stepOf props s)%Q. intros s'.
    assert (Hstep : stepOf props s' = stepOf props s) by reflexivity.
    assert (Hn : (0 <= inject_Z n * stepOf props s)%Q).
    { apply boundary_nonneg; [unfold n; lia | apply Qlt_le_weak, Hpos]. }
    assert (Hraw : (rawOf s' == inject_Z n * stepOf props s)%Q).
    { change (rawOf s') with (Qabs (inject_Z n * stepOf props s)).
      apply Qabs_pos, Hn. }
    split.
    + rewrite Hstep, Hraw. apply Qmult_lt_r; [exact Hpos|].
      rewrite <- Zlt_Qlt. lia.
    + assert (Hm' : scrollerRef s' = true) by exact Hm.
      rewrite (emitPageScroll_mounted props s' Hm'), Hobs, Hstep, Hb.
      cbn [negb orb emitted]. do 2 eexists. split; [reflexivity|].
      assert (Hq : (rawOf s' / stepOf props s == inject_Z n)%Q).
      { rewrite Hraw. field. intros H0. rewrite H0 in Hpos. discriminate Hpos. }
      unfold Math.floor. rewrite Hq, Qfloor_Z. lia.
Qed.

End PageScroll.

(** ** Frames: what a task leaves alone *)

Section Frames.

Variable props : NativeProps.

(* A navigation or a snap writes no ref but currentIndexRef. *)
Lemma scrollTo_frame (s : Pager) (index : Z) (animated : bool) :
  let s' := final (scrollTo props index animated s) in
  s' = set_currentIndexRef (currentIndexRef s') s.
Proof. concrete s. exec; reflexivity. Qed.

Lemma snapToNearest_frame (s : Pager) (animated : bool) :
  let s' := final (snapToNearest props animated s) in
  s' = set_currentIndexRef (currentIndexRef s') s.
Proof. concrete s. exec; reflexivity. Qed.

(* One timer task: the timeout leaves the queue and the settle callback runs. *)
Lemma settle_task_frame (h : nat) (s : Pager) :
  let s' := fst (task (clearTimeout h ;; settleCallback props) s) in
  s' = set_currentIndexRef (currentIndexRef s')
         (set_timeouts (filter (fun t => negb (Nat.eqb (fst t) h)) (timeouts s)) s).
Proof. concrete s. exec; reflexivity. Qed.





End Frames.

(** ** The settle timer *)

Lemma filter_named (h : nat) (ts : list (nat * N)) :
  (forall t, In t ts -> Some h = Some (fst t)) ->
  filter (fun t => negb (Nat.eqb (fst t) h)) ts = [].
Proof.
  induction ts as [|t ts IH]; intros H; [reflexivity|].
  cbn [filter]. assert (E : Some h = Some (fst t)) by (apply H; left; reflexivity).
  inversion E as [E']. rewrite Nat.eqb_refl. cbn [negb].
  rewrite <- E'. apply IH. intros u Hu. apply H. right. exact Hu.
Qed.

Lemma unnamed_nil (ts : list (nat * N)) :
  (forall t, In t ts -> None = Some (fst t)) -> ts = [].
Proof.
  destruct ts as [|t ts]; [reflexivity|].
  intros H. discriminate (H t (or_introl eq_refl)).
Qed.

Lemma filter_keeps_ok (f : nat * N -> bool) (st : option nat) (ts : list (nat * N)) :
  (forall t, In t ts -> st = Some (fst t)) /\ (List.length ts <= 1)%nat ->
  (forall t, In t (filter f ts) -> st = Some (fst t))
  /\ (List.length (filter f ts) <= 1)%nat.
Proof.
  intros [Hall Hlen]. split.
  - intros t Ht. apply filter_In in Ht. apply Hall, Ht.
  - pose proof (filter_length_le f ts). lia.
Qed.

Section Timers.

Variable props : NativeProps.

Ltac timers_done H :=
  first
    [ exact H
    | apply filter_keeps_ok; exact H
    | let Hall := fresh in let Hlen := fresh in
      destruct H as [Hall Hlen];
      first [ rewrite (filter_named _ _ Hall) | rewrite (unnamed_nil _ Hall) ];
      cbn [app In List.length fst];
      split; [ intros ? Hin; first [ destruct Hin as [<- | []]; reflexivity
                                   | destruct Hin ]
             | lia ] ].

Lemma settle_task_timers (h : nat) (s : Pager) :
  timers_ok s ->
  timers_ok (fst (task (clearTimeout h ;; settleCallback props) s)).
Proof.
  unfold timers_ok. concrete s. intros H. exec; timers_done H.
Qed.

Lemma fire_timers (due : list (nat * N)) (s : Pager) :
  timers_ok s -> timers_ok (fst (fire props due s)).
Proof.
  revert s. induction due as [|[h d] due IH]; intros s H; cbn [fire fst]; [exact H|].
  destruct (pending h s); [|apply IH, H].
  pose proof (settle_task_timers h s H) as H1.
  destruct (task _ s) as [s1 o1]. cbn [fst] in H1.
  specialize (IH s1 H1). destruct (fire props due s1). exact IH.
Qed.

Lemma dispatch_timers (i : Input) (s : Pager) :
  timers_ok s -> timers_ok (fst (dispatch props i s)).
Proof.
  intros H. destruct i; cbn [dispatch];
    try (unfold elapse; apply fire_timers; exact H);
    unfold timers_ok in *; concrete s; exec; timers_done H.
Qed.

Lemma run_timers (inputs : list Input) (s : Pager) :
  timers_ok s -> timers_ok (fst (run props inputs s)).
Proof.
  revert s. induction inputs as [|i inputs IH]; intros s H; cbn [run fst]; [exact H|].
  pose proof (dispatch_timers i s H) as H1.
  destruct (dispatch props i s) as [s1 o1]. cbn [fst] in H1.
  specialize (IH s1 H1). destruct (run props inputs s1). exact IH.
Qed.

Lemma mount_timers (el : HTMLDivElement) (us : string) :
  timers_ok (mount props el us).
Proof. split; [intros t []|cbn; lia]. Qed.

End Timers.

(** ** Drag sessions *)

Section DragSessions.

Variable props : NativeProps.

Lemma stateEvents_stateNote (st : PageScrollState) :
  onPageScrollStateChanged props = true ->
  stateEvents (stateNote props st) = [st].
Proof. intros H. unfold stateNote. rewrite H. reflexivity. Qed.

Lemma snap_quiet (s : Pager) (animated : bool) :
  stateEvents (emitted (snapToNearest props animated s)) = [].
Proof. concrete s. exec; reflexivity. Qed.

Lemma settleCallback_mounted (s : Pager) :
  scrollerRef s = true ->
  settleCallback props s =
  mkOutcome (final (snapToNearest props true s))
    (stateNote props settling
       ++ emitted (snapToNearest props true s) ++ stateNote props idle)
    (Normal tt).
Proof.
  intros Hm. pose proof (snapToNearest_completes props s true Hm) as Hc.
  unfold settleCallback, emitState, stateNote.
  destruct (onPageScrollStateChanged props); msimpl;
    destruct (snapToNearest props true s) as [s1 o1 c];
    cbn in Hc; subst c; msimpl; rewrite ?app_nil_r; reflexivity.
Qed.

Lemma pointerDown_begins (s : Pager) (e : PointerEvent) :
  orientation props = horizontal ->
  scrollEnabledRef s = true ->
  scrollerRef s = true ->
  let r := dispatch props (PointerDown e) s in
  scrollerRef (fst r) = true
  /\ draggingRef (fst r) = true
  /\ restoreRef (fst r) =
       Some {| userSelect := body_userSelect s;
               cursor := style_cursor (scroller s) |}
  /\ body_userSelect (fst r) = "none"%string
  /\ style_cursor (scroller (fst r)) = "grabbing"%string
  /\ scrollEnabledRef (fst r) = true
  /\ stateEvents (snd r) = stateEvents (stateNote props dragging)
  /\ (timers_ok s -> timeouts (fst r) = []).
Proof.
  intros Ho He Hm. cbn [dispatch]. unfold stateNote, timers_ok.
  concrete s. exec; repeat (split; [reflexivity|]); intros [Hall Hlen];
    first [ apply (filter_named _ _ Hall) | apply (unnamed_nil _ Hall) ].
Qed.

Lemma fire_keeps (due : list (nat * N)) (s : Pager) :
  let s' := fst (fire props due s) in
  scrollerRef s' = scrollerRef s
  /\ draggingRef s' = draggingRef s
  /\ restoreRef s' = restoreRef s.
Proof.
  revert s. induction due as [|[h d] due IH]; intros s; cbn [fire fst]; [auto|].
  destruct (pending h s); [|apply IH].
  pose proof (settle_task_frame props h s) as H1.
  destruct (task _ s) as [s1 o1]. cbn [fst] in H1.
  specialize (IH s1). destruct (fire props due s1) as [s2 o2].
  cbn [fst] in *. destruct IH as (-> & -> & ->). rewrite H1. auto.
Qed.

(* Inside a session nothing but the pointer handlers touches the session. *)
Lemma mid_keeps (i : Input) (s : Pager) :
  midDrag i = true ->
  let s' := fst (dispatch props i s) in
  scrollerRef s' = scrollerRef s
  /\ draggingRef s' = draggingRef s
  /\ restoreRef s' = restoreRef s.
Proof.
  intros Hi. destruct i; try discriminate Hi; cbn [dispatch];
    try (unfold elapse; apply (fire_keeps _ (set_now _ s)));
    concrete s; exec; auto.
Qed.

Lemma mid_quiet (i : Input) (s : Pager) :
  midDrag i = true ->
  draggingRef s = true ->
  timeouts s = [] ->
  timeouts (fst (dispatch props i s)) = []
  /\ stateEvents (snd (dispatch props i s)) = [].
Proof.
  intros Hi Hd Ht. destruct i; try discriminate Hi; cbn [dispatch]; unfold elapse;
    concrete s; exec; auto.
Qed.

Lemma mids_keep (mids : list Input) (s : Pager) :
  forallb midDrag mids = true ->
  let s' := fst (run props mids s) in
  scrollerRef s' = scrollerRef s
  /\ draggingRef s' = draggingRef s
  /\ restoreRef s' = restoreRef s.
Proof.
  revert s. induction mids as [|i mids IH]; intros s H; cbn [run fst]; [auto|].
  cbn [forallb] in H. apply andb_true_iff in H. destruct H as [Hi H].
  pose proof (mid_keeps i s Hi) as H1.
  destruct (dispatch props i s) as [s1 o1]. cbn [fst] in H1.
  specialize (IH s1 H). destruct (run props mids s1) as [s2 o2].
  cbn [fst] in *. destruct IH as (-> & -> & ->). exact H1.
Qed.

Lemma mids_quiet (mids : list Input) (s : Pager) :
  forallb midDrag mids = true ->
  draggingRef s = true ->
  timeouts s = [] ->
  timeouts (fst (run props mids s)) = []
  /\ stateEvents (snd (run props mids s)) = [].
Proof.
  revert s. induction mids as [|i mids IH]; intros s H Hd Ht; cbn [run fst snd]; [auto|].
  cbn [forallb] in H. apply andb_true_iff in H. destruct H as [Hi H].
  pose proof (mid_keeps i s Hi) as (_ & Hd1 & _).
  pose proof (mid_quiet i s Hi Hd Ht) as [Ht1 Hq1].
  destruct (dispatch props i s) as [s1 o1]. cbn [fst snd] in *.
  rewrite Hd in Hd1. specialize (IH s1 H Hd1 Ht1).
  destruct (run props mids s1) as [s2 o2]. cbn [fst snd] in *.
  rewrite stateEvents_app, Hq1. exact IH.
Qed.

Lemma release_ends (i : Input) (s : Pager) :
  release i = true ->
  orientation props = horizontal ->
  scrollerRef s = true ->
  draggingRef s = true ->
  let r := dispatch props i s in
  restoreRef (fst r) = None
  /\ startRef (fst r) = None
  /\ draggingRef (fst r) = false
  /\ body_userSelect (fst r) =
       match restoreRef s with
       | Some saved => userSelect saved
       | None => body_userSelect s
       end
  /\ style_cursor (scroller (fst r)) =
       match restoreRef s with
       | Some saved => cursor saved
       | None => style_cursor (scroller s)
       end
  /\ stateEvents (snd r) = stateEvents (stateNote props settling ++ stateNote props idle)
  /\ timeouts (fst r) = timeouts s.
Proof.
  intros Hi Ho Hm Hd. unfold stateNote.
  destruct i; try discriminate Hi; cbn [dispatch]; unfold hasPointerCapture;
    concrete s; exec; repeat split; reflexivity.
Qed.

End DragSessions.

(** ** Passive scrolling *)

Section Passive.

Variable props : NativeProps.

(* A scroll tick outside a drag leaves exactly the timeout it has just set. *)
Lemma scroll_tick (s : Pager) (x : Q) :
  orientation props = horizontal ->
  scrollerRef s = true ->
  draggingRef s = false ->
  timers_ok s ->
  let r := dispatch props (Scrolled x) s in
  timeouts (fst r) = [(nextHandle s, (now s + 120)%N)]
  /\ settleTimer (fst r) = Some (nextHandle s)
  /\ now (fst r) = now s
  /\ scrollerRef (fst r) = true
  /\ draggingRef (fst r) = false
  /\ stateEvents (snd r) = [].
Proof.
  intros Ho Hm Hd. cbn [dispatch]. unfold timers_ok.
  concrete s. intros [Hall Hlen].
  exec; first [ rewrite (filter_named _ _ Hall) | rewrite (unnamed_nil _ Hall) ];
    repeat split; reflexivity.
Qed.

Lemma elapse_early (s : Pager) (h : nat) (deadline d : N) :
  timeouts s = [(h, deadline)] ->
  (now s + d < deadline)%N ->
  elapse props d s = (set_now (now s + d)%N s, []).
Proof.
  intros Ht Hlt. unfold elapse. rewrite Ht. cbn [filter snd].
  destruct (N.leb_spec deadline (now s + d)); [lia|]. reflexivity.
Qed.

Lemma elapse_due (s : Pager) (h : nat) (deadline d : N) :
  timeouts s = [(h, deadline)] ->
  scrollerRef s = true ->
  (deadline <= now s + d)%N ->
  let r := elapse props d s in
  timeouts (fst r) = []
  /\ settleTimer (fst r) = settleTimer s
  /\ scrollerRef (fst r) = true
  /\ draggingRef (fst r) = draggingRef s
  /\ stateEvents (snd r) =
       stateEvents (stateNote props settling ++ stateNote props idle).
Proof.
  intros Ht Hm Hle. unfold elapse. rewrite Ht. cbn [filter snd].
  destruct (N.leb_spec deadline (now s + d)); [|lia].
  unfold stateNote. concrete s. cbn [fire pending existsb fst timeouts].
  rewrite Nat.eqb_refl. cbn [orb].
  exec; cbn [filter fst]; rewrite ?Nat.eqb_refl; cbn [negb];
    repeat split; reflexivity.
Qed.

(* A tick followed by a pause shorter than the window: nothing settles. *)
Lemma tick_then_pause (s : Pager) (x : Q) (p : N) :
  orientation props = horizontal ->
  scrollerRef s = true ->
  draggingRef s = false ->
  timers_ok s ->
  (p < 120)%N ->
  let r := run props [Scrolled x; Elapse p] s in
  scrollerRef (fst r) = true
  /\ draggingRef (fst r) = false
  /\ timers_ok (fst r)
  /\ stateEvents (snd r) = []
  /\ now (fst r) = (now s + p)%N.
Proof.
  intros Ho Hm Hd Hok Hp. cbn [run].
  pose proof (scroll_tick s x Ho Hm Hd Hok) as (Ht & Hst & Hn & Hm1 & Hd1 & Hq).
  pose proof (dispatch_timers props (Scrolled x) s Hok) as Hok1.
  destruct (dispatch props (Scrolled x) s) as [s1 o1]. cbn [fst snd] in *.
  cbn [dispatch]. rewrite (elapse_early s1 _ _ p Ht) by lia.
  cbn [fst snd]. rewrite app_nil_r.
  split; [exact Hm1|]. split; [exact Hd1|]. split; [exact Hok1|].
  split; [exact Hq|]. cbn. rewrite Hn. reflexivity.
Qed.

(* A tick followed by a pause of at least the window: one settle sequence. *)
Lemma tick_then_quiet (s : Pager) (x : Q) (d : N) :
  orientation props = horizontal ->
  scrollerRef s = true ->
  draggingRef s = false ->
  timers_ok s ->
  (120 <= d)%N ->
  stateEvents (snd (run props [Scrolled x; Elapse d] s)) =
  stateEvents (stateNote props settling ++ stateNote props idle).
Proof.
  intros Ho Hm Hd Hok Hp. cbn [run].
  pose proof (scroll_tick s x Ho Hm Hd Hok) as (Ht & Hst & Hn & Hm1 & Hd1 & Hq).
  destruct (dispatch props (Scrolled x) s) as [s1 o1]. cbn [fst snd] in *.
  cbn [dispatch].
  assert (Hdue : (now s + 120 <= now s1 + d)%N) by lia.
  pose proof (elapse_due s1 _ _ d Ht Hm1 Hdue) as (_ & _ & _ & _ & Hq2).
  destruct (elapse props d s1) as [s2 o2]. cbn [fst snd] in *.
  rewrite app_nil_r, stateEvents_app, Hq, Hq2. reflexivity.
Qed.

(* The log of a due timeout: settling, the snap, idle, in one task. *)
Lemma elapse_due_log (s : Pager) (h : nat) (deadline d : N) :
  timeouts s = [(h, deadline)] ->
  scrollerRef s = true ->
  (deadline <= now s + d)%N ->
  exists snap,
    snd (elapse props d s) =
      stateNote props settling ++ snap ++ stateNote props idle
    /\ stateEvents snap = [].
Proof.
  intros Ht Hm Hle. unfold elapse. rewrite Ht. cbn [filter snd].
  destruct (N.leb_spec deadline (now s + d)); [|lia].
  cbn [fire]. unfold pending. cbn [timeouts set_now]. rewrite Ht.
  cbn [existsb fst]. rewrite Nat.eqb_refl. cbn [orb].
  unfold task.
  rewrite (bind_normal (clearTimeout h) _ (set_now (now s + d)%N s) tt eq_refl).
  set (st := final (clearTimeout h (set_now (now s + d)%N s))).
  rewrite (settleCallback_mounted props st Hm).
  exists (emitted (snapToNearest props true st)).
  cbn [emitted completion snd app]. rewrite !app_nil_r.
  split; [reflexivity | apply snap_quiet].
Qed.

Lemma ticks_quiet (pauses : list (Q * N)) (s : Pager) :
  orientation props = horizontal ->
  scrollerRef s = true ->
  draggingRef s = false ->
  timers_ok s ->
  forallb (fun t => (snd t <? 120)%N) pauses = true ->
  let r := run props (ticks pauses) s in
  scrollerRef (fst r) = true
  /\ draggingRef (fst r) = false
  /\ timers_ok (fst r)
  /\ stateEvents (snd r) = [].
Proof.
  intros Ho. revert s.
  induction pauses as [|[x p] pauses IH]; intros s Hm Hd Hok Hall.
  - cbn. auto.
  - cbn [forallb snd] in Hall. apply andb_true_iff in Hall.
    destruct Hall as [Hp Hall]. apply N.ltb_lt in Hp.
    change (ticks ((x, p) :: pauses))
      with ([Scrolled x; Elapse p] ++ ticks pauses).
    rewrite run_app.
    pose proof (tick_then_pause s x p Ho Hm Hd Hok Hp) as (Hm1 & Hd1 & Hok1 & Hq1 & _).
    destruct (run props [Scrolled x; Elapse p] s) as [s1 o1]. cbn [fst snd] in *.
    specialize (IH s1 Hm1 Hd1 Hok1 Hall).
    destruct (run props (ticks pauses) s1) as [s2 o2]. cbn [fst snd] in *.
    rewrite stateEvents_app, Hq1. exact IH.
Qed.

End Passive.

(** ** C3: the committed index *)










Section CommittedIndex.

Variable props : NativeProps.


End CommittedIndex.

(** ** C5, C6: scroll-state events and the settle timer *)

Section ScrollState.

Variable props : NativeProps.

Lemma session_open (s : Pager) (e : PointerEvent) (mids : list Input) :
  orientation props = horizontal ->
  scrollEnabledRef s = true ->
  scrollerRef s = true ->
  forallb midDrag mids = true ->
  let r := run props (PointerDown e :: mids) s in
  scrollerRef (fst r) = true
  /\ draggingRef (fst r) = true
  /\ restoreRef (fst r) =
       Some {| userSelect := body_userSelect s;
               cursor := style_cursor (scroller s) |}
  /\ (timers_ok s ->
      timeouts (fst r) = []
      /\ stateEvents (snd r) = stateEvents (stateNote props dragging)).
Proof.
  intros Ho He Hm Hmid. cbn [run].
  pose proof (pointerDown_begins props s e Ho He Hm)
    as (Hm1 & Hd1 & Hr1 & _ & _ & _ & Hq1 & Ht1).
  destruct (dispatch props (PointerDown e) s) as [s1 o1]. cbn [fst snd] in *.
  pose proof (mids_keep props mids s1 Hmid) as (Hm2 & Hd2 & Hr2).
  pose proof (mids_quiet props mids s1 Hmid Hd1) as Hq2.
  destruct (run props mids s1) as [s2 o2]. cbn [fst snd] in *.
  split; [congruence|]. split; [congruence|]. split; [congruence|].
  intros Hok. destruct (Hq2 (Ht1 Hok)) as [Ht2 Hq2'].
  split; [exact Ht2|]. rewrite stateEvents_app, Hq1, Hq2', app_nil_r. reflexivity.
Qed.

(** C5.  With an onPageScrollStateChanged observer, on a mounted horizontal
    pager whose timers are in order: a drag interaction (pointer-down, any
    inputs that are not pointer-down, -up or -cancel, then a pointer-up or a
    pointer-cancel) emits exactly dragging, settling, idle in this order; a
    passive interaction (scroll ticks less than 120 ms apart, then 120 ms or
    more of quiet) emits exactly settling, idle, so one idle per settle; and
    in both the settling and the idle event enclose the snap inside one
    task's log. *)
Theorem scroll_state_order
  (s : Pager) (e : PointerEvent) (mids : list Input) (ending : Input)
  (pauses : list (Q * N)) (x : Q) (d : N) :
  orientation props = horizontal ->
  onPageScrollStateChanged props = true ->
  scrollerRef s = true ->
  scrollEnabledRef s = true ->
  draggingRef s = false ->
  timers_ok s ->
  forallb midDrag mids = true ->
  release ending = true ->
  forallb (fun t => (snd t <? 120)%N) pauses = true ->
  (120 <= d)%N ->
  stateEvents (snd (run props (PointerDown e :: mids ++ [ending]) s))
    = [dragging; settling; idle]
  /\ stateEvents (snd (run props (ticks pauses ++ [Scrolled x; Elapse d]) s))
    = [settling; idle]
  /\ (exists snap,
        snd (dispatch props ending (fst (run props (PointerDown e :: mids) s)))
          = PageScrollStateChanged settling :: snap ++ [PageScrollStateChanged idle]
        /\ stateEvents snap = [])
  /\ (exists snap,
        snd (dispatch props (Elapse d)
               (fst (run props (ticks pauses ++ [Scrolled x]) s)))
          = PageScrollStateChanged settling :: snap ++ [PageScrollStateChanged idle]
        /\ stateEvents snap = []).
Proof.
  intros Ho Hobs Hm He Hd Hok Hmid Hrel Hpauses Hquiet.
  pose proof (session_open s e mids Ho He Hm Hmid) as (Hm2 & Hd2 & _ & Hq).
  destruct (Hq Hok) as [Ht2 Hq2]. clear Hq.
  pose proof (ticks_quiet props pauses s Ho Hm Hd Hok Hpauses)
    as (Hm3 & Hd3 & Hok3 & Hq3).
  split; [|split; [|split]].
  - change (PointerDown e :: mids ++ [ending])
      with ((PointerDown e :: mids) ++ [ending]).
    rewrite run_app.
    destruct (run props (PointerDown e :: mids) s) as [s2 o2]. cbn [fst snd] in *.
    pose proof (release_ends props ending s2 Hrel Ho Hm2 Hd2)
      as (_ & _ & _ & _ & _ & Hq4 & _).
    cbn [run]. destruct (dispatch props ending s2) as [s4 o4]. cbn [fst snd] in *.
    rewrite app_nil_r, stateEvents_app, Hq2, Hq4, stateEvents_app.
    rewrite !stateEvents_stateNote by exact Hobs. reflexivity.
  - rewrite run_app.
    destruct (run props (ticks pauses) s) as [s3 o3]. cbn [fst snd] in *.
    pose proof (tick_then_quiet props s3 x d Ho Hm3 Hd3 Hok3 Hquiet) as Hq5.
    destruct (run props [Scrolled x; Elapse d] s3) as [s5 o5]. cbn [fst snd] in *.
    rewrite stateEvents_app, Hq3, Hq5, stateEvents_app.
    rewrite !stateEvents_stateNote by exact Hobs. reflexivity.
  - destruct (run props (PointerDown e :: mids) s) as [s2 o2]. cbn [fst snd] in *.
    exists (emitted (snapToNearest props true
                       (released match ending with
                                 | PointerUp e' | PointerCancel e' => e'
                                 | _ => e
                                 end s2))).
    split; [|apply snap_quiet].
    destruct ending; try discriminate Hrel; cbn [dispatch];
      unfold task, onPointerUp, onPointerCancel;
      rewrite (endDrag_dragging props s2 _ Ho Hd2 Hm2);
      cbn [emitted completion snd]; unfold stateNote; rewrite Hobs;
      rewrite app_nil_r; reflexivity.
  - rewrite run_app.
    destruct (run props (ticks pauses) s) as [s3 o3]. cbn [fst snd] in *.
    pose proof (scroll_tick props s3 x Ho Hm3 Hd3 Hok3)
      as (Ht6 & _ & Hn6 & Hm6 & _ & _).
    cbn [run]. destruct (dispatch props (Scrolled x) s3) as [s6 o6].
    cbn [fst snd] in *. cbn [dispatch].
    assert (Hdue : (now s3 + 120 <= now s6 + d)%N) by lia.
    destruct (elapse_due_log props s6 _ _ d Ht6 Hm6 Hdue) as (snap & Hlog & Hsnap).
    exists snap. split; [|exact Hsnap].
    rewrite Hlog. unfold stateNote. rewrite Hobs. reflexivity.
Qed.

(** C6.  At most one settle timeout is pending in every state a mounted
    pager reaches, and every input keeps it so; a scroll tick outside a drag
    replaces whatever was pending by one fresh timeout due 120 ms later; two
    passive ticks less than 120 ms apart produce one settle sequence, due
    120 ms after the second tick (none if the quiet after it is shorter). *)
Theorem one_settle_timer_debounced (s : Pager) (x1 x2 : Q) (d1 d2 : N) :
  orientation props = horizontal ->
  onPageScrollStateChanged props = true ->
  scrollerRef s = true ->
  draggingRef s = false ->
  timers_ok s ->
  (d1 < 120)%N ->
  (forall el us inputs,
      (List.length (timeouts (fst (run props inputs (mount props el us)))) <= 1)%nat)
  /\ (forall i, (List.length (timeouts (fst (dispatch props i s))) <= 1)%nat)
  /\ timeouts (fst (dispatch props (Scrolled x1) s))
       = [(nextHandle s, (now s + 120)%N)]
  /\ map snd (timeouts (fst (run props [Scrolled x1; Elapse d1; Scrolled x2] s)))
       = [(now s + d1 + 120)%N]
  /\ stateEvents
       (snd (run props [Scrolled x1; Elapse d1; Scrolled x2; Elapse d2] s))
       = (if (120 <=? d2)%N then [settling; idle] else []).
Proof.
  intros Ho Hobs Hm Hd Hok Hd1.
  split; [|split; [|split; [|split]]].
  - intros el us inputs.
    apply (run_timers props inputs _ (mount_timers props el us)).
  - intros i. apply (dispatch_timers props i s Hok).
  - apply (scroll_tick props s x1 Ho Hm Hd Hok).
  - change [Scrolled x1; Elapse d1; Scrolled x2]
      with ([Scrolled x1; Elapse d1] ++ [Scrolled x2]).
    rewrite run_app.
    pose proof (tick_then_pause props s x1 d1 Ho Hm Hd Hok Hd1)
      as (Hm1 & Hdr1 & Hok1 & _ & Hn1).
    destruct (run props [Scrolled x1; Elapse d1] s) as [s1 o1]. cbn [fst snd] in *.
    pose proof (scroll_tick props s1 x2 Ho Hm1 Hdr1 Hok1) as (Ht2 & _).
    cbn [run]. destruct (dispatch props (Scrolled x2) s1) as [s2 o2].
    cbn [fst snd] in *. rewrite Ht2, Hn1. reflexivity.
  - change [Scrolled x1; Elapse d1; Scrolled x2; Elapse d2]
      with ([Scrolled x1; Elapse d1] ++ [Scrolled x2; Elapse d2]).
    rewrite run_app.
    pose proof (tick_then_pause props s x1 d1 Ho Hm Hd Hok Hd1)
      as (Hm1 & Hdr1 & Hok1 & Hq1 & _).
    destruct (run props [Scrolled x1; Elapse d1] s) as [s1 o1]. cbn [fst snd] in *.
    destruct (N.leb_spec 120 d2) as [Hge | Hlt].
    + pose proof (tick_then_quiet props s1 x2 d2 Ho Hm1 Hdr1 Hok1 Hge) as Hq2.
      destruct (run props [Scrolled x2; Elapse d2] s1) as [s2 o2].
      cbn [fst snd] in *. rewrite stateEvents_app, Hq1, Hq2, stateEvents_app.
      rewrite !stateEvents_stateNote by exact Hobs. reflexivity.
    + pose proof (tick_then_pause props s1 x2 d2 Ho Hm1 Hdr1 Hok1 Hlt)
        as (_ & _ & _ & Hq2 & _).
      destruct (run props [Scrolled x2; Elapse d2] s1) as [s2 o2].
      cbn [fst snd] in *. rewrite stateEvents_app, Hq1, Hq2. reflexivity.
Qed.

(** ** C8, C10: the saved visual state *)

(** C8.  On a mounted horizontal pager that accepts gestures, pointer-down
    puts 'none' on the body's user-select and 'grabbing' on the scroller's
    cursor, and after the session (any inputs that are not pointer-down, -up
    or -cancel, then a pointer-up or a pointer-cancel) both are back at the
    values they had before the pointer-down; the saved values and the drag
    start are dropped. *)
Theorem drag_session_restores_visual_state
  (s : Pager) (e : PointerEvent) (mids : list Input) (ending : Input) :
  orientation props = horizontal ->
  scrollEnabledRef s = true ->
  scrollerRef s = true ->
  forallb midDrag mids = true ->
  release ending = true ->
  let down := fst (dispatch props (PointerDown e) s) in
  let after := fst (run props (PointerDown e :: mids ++ [ending]) s) in
  body_userSelect down = "none"%string
  /\ style_cursor (scroller down) = "grabbing"%string
  /\ body_userSelect after = body_userSelect s
  /\ style_cursor (scroller after) = style_cursor (scroller s)
  /\ restoreRef after = None
  /\ startRef after = None
  /\ draggingRef after = false.
Proof.
  intros Ho He Hm Hmid Hrel down after.
  pose proof (pointerDown_begins props s e Ho He Hm)
    as (_ & _ & _ & Hb & Hc & _).
  split; [exact Hb|]. split; [exact Hc|].
  pose proof (session_open s e mids Ho He Hm Hmid) as (Hm2 & Hd2 & Hr2 & _).
  subst after.
  change (PointerDown e :: mids ++ [ending])
    with ((PointerDown e :: mids) ++ [ending]).
  rewrite run_app.
  destruct (run props (PointerDown e :: mids) s) as [s2 o2]. cbn [fst snd] in *.
  pose proof (release_ends props ending s2 Hrel Ho Hm2 Hd2)
    as (H1 & H2 & H3 & H4 & H5 & _).
  cbn [run]. destruct (dispatch props ending s2) as [s4 o4]. cbn [fst snd] in *.
  rewrite Hr2 in H4, H5. cbn [userSelect cursor] in H4, H5.
  repeat split; assumption.
Qed.

(** C10.  onPointerDown does not ask for the idle state.  On a mounted
    horizontal pager that accepts gestures, after pointer-down, pointer-down,
    pointer-up the second pointer-down has found draggingRef set and has
    saved the suppressed values over the first ones, so the session ends with
    the body's user-select at 'none' and the cursor at 'grabbing': unless it
    was 'none' before, the pre-drag user-select is not restored. *)
Theorem nested_pointer_down_loses_saved_style
  (s : Pager) (e1 e2 e3 : PointerEvent) :
  orientation props = horizontal ->
  scrollEnabledRef s = true ->
  scrollerRef s = true ->
  let s1 := fst (dispatch props (PointerDown e1) s) in
  let s2 := fst (run props [PointerDown e1; PointerDown e2] s) in
  let s3 := fst (run props [PointerDown e1; PointerDown e2; PointerUp e3] s) in
  draggingRef s1 = true
  /\ restoreRef s1 = Some {| userSelect := body_userSelect s;
                             cursor := style_cursor (scroller s) |}
  /\ restoreRef s2 = Some {| userSelect := "none"; cursor := "grabbing" |}
  /\ body_userSelect s3 = "none"%string
  /\ style_cursor (scroller s3) = "grabbing"%string
  /\ draggingRef s3 = false
  /\ restoreRef s3 = None
  /\ (body_userSelect s <> "none"%string -> body_userSelect s3 <> body_userSelect s).
Proof.
  intros Ho He Hm s1 s2 s3.
  pose proof (pointerDown_begins props s e1 Ho He Hm)
    as (Hm1 & Hd1 & Hr1 & Hb1 & Hc1 & He1 & _).
  fold s1 in Hm1, Hd1, Hr1, Hb1, Hc1, He1.
  pose proof (pointerDown_begins props s1 e2 Ho He1 Hm1)
    as (Hm2 & Hd2 & Hr2 & _).
  rewrite Hb1, Hc1 in Hr2.
  assert (E2 : s2 = fst (dispatch props (PointerDown e2) s1)).
  { unfold s2, s1. cbn [run]. destruct (dispatch props (PointerDown e1) s) as [a oa].
    cbn [fst]. destruct (dispatch props (PointerDown e2) a). reflexivity. }
  rewrite <- E2 in Hm2, Hd2, Hr2.
  pose proof (release_ends props (PointerUp e3) s2 eq_refl Ho Hm2 Hd2)
    as (H1 & _ & H3 & H4 & H5 & _).
  rewrite Hr2 in H4, H5. cbn [userSelect cursor] in H4, H5.
  assert (E3 : s3 = fst (dispatch props (PointerUp e3) s2)).
  { unfold s3, s2.
    change [PointerDown e1; PointerDown e2; PointerUp e3]
      with ([PointerDown e1; PointerDown e2] ++ [PointerUp e3]).
    rewrite run_app. destruct (run props [PointerDown e1; PointerDown e2] s) as [a oa].
    cbn [run fst]. destruct (dispatch props (PointerUp e3) a). reflexivity. }
  rewrite <- E3 in H1, H3, H4, H5.
  repeat (split; [assumption|]).
  intros Hne. rewrite H4. congruence.
Qed.

End ScrollState.

(** ** Examples, counterexamples and instances *)

(* Spec scenario: three pages, a drag to 0.6 * step, release. *)
Example drag_to_sixty_percent_snaps_to_page_one :
  snd (run threePages
         [PointerDown (pointerAt 200); PointerMove (pointerAt 140);
          PointerUp (pointerAt 140)]
         (mount threePages (scrollerAt 100 0) ""))
  = [PageScrollStateChanged dragging; PageScroll 0 (60 # 100);
     PageScrollStateChanged settling; ScrollTo 100 behavior_smooth;
     PageSelected 1; PageScrollStateChanged idle].
Proof. vm_compute. reflexivity. Qed.

(* Spec scenario: RTL, setPageWithoutAnimation(2) on three pages. *)
Example rtl_navigation_negates_offset :
  snd (run threePagesRtl [SetPageWithoutAnimation 2]
         (mount threePagesRtl (scrollerAt 100 0) ""))
  = [ScrollTo (-200) behavior_auto; PageSelected 2].
Proof. vm_compute. reflexivity. Qed.

(* Unmounted, the timer callback dereferences null after emitting settling. *)
Example settle_callback_unmounted_faults :
  let s := set_timeouts [(0%nat, 120%N)]
             (mount threePages (scrollerAt 100 0) "") in
  snd (elapse threePages 120
         {| scrollerRef := false; scrollEnabledRef := scrollEnabledRef s;
            draggingRef := draggingRef s; startRef := startRef s;
            restoreRef := restoreRef s; currentIndexRef := currentIndexRef s;
            settleTimer := settleTimer s; scroller := scroller s;
            body_userSelect := body_userSelect s; timeouts := timeouts s;
            nextHandle := nextHandle s; now := now s |})
  = [PageScrollStateChanged settling; Uncaught NullDereference].
Proof. vm_compute. reflexivity. Qed.

(** C1, counterexample.  Three pages of step 100 released at raw offset
    350: [round(350/100) * 100] is 400, the scroller is sent to 200. *)
Lemma snap_beyond_last_page_is_clamped :
  let s := mount threePages (scrollerAt 100 350) "" in
  let log := snd (run threePages
                    [PointerDown (pointerAt 0); PointerUp (pointerAt 0)] s) in
  scrollerRef s = true
  /\ (0 < stepOf threePages s)%Q
  /\ restingRaw log = Some 200%Q
  /\ ~ (200 == inject_Z (Math.round (rawOf s / stepOf threePages s))
               * stepOf threePages s)%Q.
Proof.
  cbv zeta. split; [reflexivity|]. split; [reflexivity|].
  split; [vm_compute; reflexivity|].
  intros H. vm_compute in H. discriminate H.
Qed.


(** C4, counterexample.  Extent 0 with [pageMargin = 10]: step is 10, so
    emitPageScroll emits a pair and snapToNearest issues a scroll command. *)
Lemma zero_extent_with_margin_still_emits :
  let s := mount withMargin (scrollerAt 0 0) "" in
  (0 <= pageMargin withMargin)%Q
  /\ clientWidth (scroller s) = 0
  /\ pageScrolls (emitted (emitPageScroll withMargin s)) <> []
  /\ scrollCommands (emitted (snapToNearest withMargin true s)) <> [].
Proof.
  cbv zeta. split; [discriminate|]. split; [reflexivity|].
  split; vm_compute; discriminate.
Qed.

Lemma snap_rests_on_clamped_boundary_witness :
  let s := mount threePages (scrollerAt 100 60) "" in
  scrollerRef s = true
  /\ (0 < stepOf threePages s)%Q
  /\ scrollCommands (emitted (snapToNearest threePages true s)) =
       [(signed threePages
           (inject_Z (snapIndex threePages s) * stepOf threePages s),
         behaviorOf true)].
Proof.
  cbv zeta. split; [reflexivity|]. split; [reflexivity|].
  apply (snap_rests_on_clamped_boundary threePages
           (mount threePages (scrollerAt 100 60) "") true eq_refl).
  reflexivity.
Defined.

Lemma selection_fires_iff_index_changes_witness :
  let s := mount threePages (scrollerAt 100 0) "" in
  scrollerRef s = true
  /\ onPageSelected threePages = true
  /\ currentIndexRef (final (scrollTo threePages 2 true s)) = target threePages 2.
Proof.
  cbv zeta. split; [reflexivity|]. split; [reflexivity|].
  apply (selection_fires_iff_index_changes threePages
           (mount threePages (scrollerAt 100 0) "") 2 true eq_refl eq_refl).
Defined.


Lemma zero_step_skips_position_math_witness :
  let s := mount threePages (scrollerAt 0 0) "" in
  scrollerRef s = true
  /\ clientWidth (scroller s) = 0
  /\ (pageMargin threePages == 0)%Q
  /\ emitPageScroll threePages s = mkOutcome s [] (Normal tt).
Proof.
  cbv zeta. split; [reflexivity|]. split; [reflexivity|]. split; [reflexivity|].
  apply (zero_step_skips_position_math threePages
           (mount threePages (scrollerAt 0 0) "") true eq_refl eq_refl).
  reflexivity.
Defined.

Lemma scroll_state_order_witness :
  let s := mount threePages (scrollerAt 100 0) "" in
  orientation threePages = horizontal
  /\ onPageScrollStateChanged threePages = true
  /\ scrollerRef s = true
  /\ scrollEnabledRef s = true
  /\ draggingRef s = false
  /\ timers_ok s
  /\ stateEvents
       (snd (run threePages
               (PointerDown (pointerAt 200)
                  :: [PointerMove (pointerAt 140); Scrolled 60; Elapse 500]
                  ++ [PointerCancel (pointerAt 140)]) s))
     = [dragging; settling; idle].
Proof.
  cbv zeta.
  assert (Hok : timers_ok (mount threePages (scrollerAt 100 0) "")).
  { split; [intros t []|]. apply Nat.le_0_l. }
  repeat (split; [first [reflexivity | exact Hok]|]).
  apply (scroll_state_order threePages
           (mount threePages (scrollerAt 100 0) "") (pointerAt 200)
           [PointerMove (pointerAt 140); Scrolled 60; Elapse 500]
           (PointerCancel (pointerAt 140)) [(10%Q, 50%N)] 60%Q 120%N
           eq_refl eq_refl eq_refl eq_refl eq_refl Hok eq_refl eq_refl eq_refl).
  discriminate.
Defined.

Lemma one_settle_timer_debounced_witness :
  let s := mount threePages (scrollerAt 100 0) "" in
  orientation threePages = horizontal
  /\ onPageScrollStateChanged threePages = true
  /\ scrollerRef s = true
  /\ draggingRef s = false
  /\ timers_ok s
  /\ (50 < 120)%N
  /\ timeouts (fst (dispatch threePages (Scrolled 60) s))
     = [(nextHandle s, (now s + 120)%N)].
Proof.
  cbv zeta.
  assert (Hok : timers_ok (mount threePages (scrollerAt 100 0) "")).
  { split; [intros t []|]. apply Nat.le_0_l. }
  repeat (split; [first [reflexivity | exact Hok]|]).
  apply (one_settle_timer_debounced threePages
           (mount threePages (scrollerAt 100 0) "") 60%Q 70%Q 50%N 200%N
           eq_refl eq_refl eq_refl eq_refl Hok eq_refl).
Defined.

Lemma setPage_clamps_and_never_throws_witness :
  let s := mount threePages (scrollerAt 100 0) "" in
  (1 <= pageCount threePages)%nat
  /\ completion (setPage threePages (-5) s) = Normal tt.
Proof.
  cbv zeta.
  assert (H : (1 <= pageCount threePages)%nat) by (repeat constructor).
  split; [exact H|].
  apply (setPage_clamps_and_never_throws threePages
           (mount threePages (scrollerAt 100 0) "") (-5) H).
Defined.

Lemma drag_session_restores_visual_state_witness :
  let s := mount threePages (scrollerAt 100 0) "auto" in
  let after :=
    fst (run threePages
           (PointerDown (pointerAt 200)
              :: [PointerMove (pointerAt 140); SetScrollEnabled false]
              ++ [PointerCancel (pointerAt 140)]) s) in
  orientation threePages = horizontal
  /\ scrollEnabledRef s = true
  /\ scrollerRef s = true
  /\ body_userSelect after = body_userSelect s.
Proof.
  cbv zeta. repeat (split; [reflexivity|]).
  apply (drag_session_restores_visual_state threePages
           (mount threePages (scrollerAt 100 0) "auto") (pointerAt 200)
           [PointerMove (pointerAt 140); SetScrollEnabled false]
           (PointerCancel (pointerAt 140))
           eq_refl eq_refl eq_refl eq_refl eq_refl).
Defined.

Lemma page_scroll_position_not_clamped_witness :
  let s := mount threePages (scrollerAt 100 60) "" in
  scrollerRef s = true
  /\ onPageScroll threePages = true
  /\ (0 < stepOf threePages s)%Q
  /\ exists offset,
       emitted (emitPageScroll threePages s)
       = [PageScroll (Math.floor (rawOf s / stepOf threePages s)) offset]
       /\ 0 <= Math.floor (rawOf s / stepOf threePages s)
       /\ (0 <= offset)%Q /\ (offset <= 1)%Q.
Proof.
  cbv zeta. repeat (split; [reflexivity|]).
  apply (page_scroll_position_not_clamped threePages
           (mount threePages (scrollerAt 100 60) "") eq_refl eq_refl eq_refl).
Defined.

Lemma nested_pointer_down_loses_saved_style_witness :
  let s := mount threePages (scrollerAt 100 0) "auto" in
  let s3 := fst (run threePages
                   [PointerDown (pointerAt 200); PointerDown (pointerAt 210);
                    PointerUp (pointerAt 140)] s) in
  orientation threePages = horizontal
  /\ scrollEnabledRef s = true
  /\ scrollerRef s = true
  /\ body_userSelect s = "auto"%string
  /\ body_userSelect s3 = "none"%string.
Proof.
  cbv zeta. repeat (split; [reflexivity|]).
  apply (nested_pointer_down_loses_saved_style threePages
           (mount threePages (scrollerAt 100 0) "auto")
           (pointerAt 200) (pointerAt 210) (pointerAt 140)
           eq_refl eq_refl eq_refl).
Defined.

(** ** Position, offset and the snap target *)

Lemma floor_unique (x : Q) (n : Z) :
  (inject_Z n <= x)%Q -> (x < inject_Z (n + 1))%Q -> Qfloor x = n.
Proof.
  intros Hlo Hhi.
  pose proof (Qfloor_le x) as H1. pose proof (Qlt_floor x) as H2.
  assert (A : n < Qfloor x + 1).
  { rewrite Zlt_Qlt. eapply Qle_lt_trans; [exact Hlo | exact H2]. }
  assert (B : Qfloor x < n + 1).
  { rewrite Zlt_Qlt. eapply Qle_lt_trans; [exact H1 | exact Hhi]. }
  lia.
Qed.





Section SnapTarget.

Variable props : NativeProps.



(* At rest on a page boundary the snap index is that page. *)
Lemma snapIndex_at_boundary (s : Pager) (k : Z) :
  (0 < stepOf props s)%Q ->
  0 <= k <= lastIndex props ->
  (rawOf s == inject_Z k * stepOf props s)%Q ->
  snapIndex props s = k.
Proof.
  intros Hpos Hk Hraw.
  assert (Hf : (rawOf s / stepOf props s == inject_Z k)%Q).
  { rewrite Hraw. field. intros E. rewrite E in Hpos. discriminate Hpos. }
  unfold snapIndex, Math.round. rewrite Hf.
  rewrite (floor_unique _ k); [rewrite clamp_Z; lia| |].
  - lra.
  - rewrite inject_Z_plus. change (inject_Z 1) with 1%Q. lra.
Qed.

End SnapTarget.

(** ** Pointer moves *)

Lemma pageScrolls_app (a b : list Effect) :
  pageScrolls (a ++ b) = pageScrolls a ++ pageScrolls b.
Proof.
  induction a as [|x a IH]; [reflexivity|].
  destruct x; cbn [app pageScrolls]; rewrite IH; reflexivity.
Qed.

Lemma faults_app (a b : list Effect) : faults (a ++ b) = faults a ++ faults b.
Proof.
  induction a as [|x a IH]; [reflexivity|].
  destruct x; cbn [app faults]; rewrite IH; reflexivity.
Qed.

Section PointerMoves.

Variable props : NativeProps.

Lemma fire_keeps_start (due : list (nat * N)) (s : Pager) :
  startRef (fst (fire props due s)) = startRef s
  /\ scroller (fst (fire props due s)) = scroller s.
Proof.
  revert s. induction due as [|[h d] due IH]; intros s; cbn [fire fst]; [auto|].
  destruct (pending h s); [|apply IH].
  pose proof (settle_task_frame props h s) as H1.
  destruct (task _ s) as [s1 o1]. cbn [fst] in H1.
  specialize (IH s1). destruct (fire props due s1) as [s2 o2].
  cbn [fst] in *. destruct IH as (-> & ->). rewrite H1. auto.
Qed.

Lemma mid_keeps_start (i : Input) (s : Pager) :
  midDrag i = true ->
  startRef (fst (dispatch props i s)) = startRef s.
Proof.
  intros Hi. destruct i; try discriminate Hi; cbn [dispatch];
    try (unfold elapse; apply (fire_keeps_start _ (set_now _ s)));
    concrete s; exec; reflexivity.
Qed.

Lemma mids_keep_start (mids : list Input) (s : Pager) :
  forallb midDrag mids = true ->
  startRef (fst (run props mids s)) = startRef s.
Proof.
  revert s. induction mids as [|i mids IH]; intros s H; cbn [run fst]; [reflexivity|].
  cbn [forallb] in H. apply andb_true_iff in H. destruct H as [Hi H].
  pose proof (mid_keeps_start i s Hi) as H1.
  destruct (dispatch props i s) as [s1 o1]. cbn [fst] in H1.
  specialize (IH s1 H). destruct (run props mids s1) as [s2 o2].
  cbn [fst] in *. congruence.
Qed.

Lemma pointerDown_start (s : Pager) (e : PointerEvent) :
  orientation props = horizontal ->
  scrollEnabledRef s = true ->
  scrollerRef s = true ->
  startRef (fst (dispatch props (PointerDown e) s))
  = Some {| start_x := clientX e; start_sl := scrollLeft (scroller s) |}.
Proof.
  intros Ho He Hm. cbn [dispatch]. concrete s. exec; reflexivity.
Qed.

Lemma pointerMove_tracks (s : Pager) (e : PointerEvent) (st : Start) :
  orientation props = horizontal ->
  scrollerRef s = true ->
  draggingRef s = true ->
  startRef s = Some st ->
  let r := dispatch props (PointerMove e) s in
  scrollLeft (scroller (fst r))
    = (start_sl st - (clientX e - start_x st) * dragDirection props)%Q
  /\ fst r = set_scroller (set_scrollLeft (scrollLeft (scroller (fst r))) (scroller s)) s
  /\ snd r = emitted (emitPageScroll props (fst r)).
Proof.
  intros Ho Hm Hd Hs. cbn [dispatch]. unfold dragDirection.
  concrete s. exec; repeat split; reflexivity.
Qed.

(** X4.  A pointer move tracks the pointer from the drag start: on a
    mounted horizontal pager that accepts gestures, after a pointer-down at
    [x0] and any inputs that are not pointer-down, -up or -cancel, a
    pointer-move at [x] sets scrollLeft to
    [sl0 - (x - x0) * dir], with [sl0] the scrollLeft at the pointer-down and
    [dir] -1 under RTL and 1 otherwise: the offset depends on the current
    pointer position only, not on the moves before, and a pointer back at
    [x0] brings scrollLeft back to [sl0].  The move changes nothing else and
    logs exactly what emitPageScroll emits at the new offset. *)
Theorem pointer_move_tracks_from_drag_start
  (s : Pager) (e0 e : PointerEvent) (mids : list Input) :
  orientation props = horizontal ->
  scrollEnabledRef s = true ->
  scrollerRef s = true ->
  forallb midDrag mids = true ->
  let sl0 := scrollLeft (scroller s) in
  let before := fst (run props (PointerDown e0 :: mids) s) in
  let r := dispatch props (PointerMove e) before in
  scrollLeft (scroller (fst r))
    = (sl0 - (clientX e - clientX e0) * dragDirection props)%Q
  /\ ((clientX e == clientX e0)%Q -> (scrollLeft (scroller (fst r)) == sl0)%Q)
  /\ fst r = set_scroller
               (set_scrollLeft (scrollLeft (scroller (fst r))) (scroller before))
               before
  /\ snd r = emitted (emitPageScroll props (fst r)).
Proof.
  intros Ho He Hm Hmid sl0 before r.
  pose proof (session_open props s e0 mids Ho He Hm Hmid) as (Hm2 & Hd2 & _).
  assert (Hst : startRef before
                = Some {| start_x := clientX e0; start_sl := sl0 |}).
  { unfold before. cbn [run].
    pose proof (pointerDown_start s e0 Ho He Hm) as H1.
    destruct (dispatch props (PointerDown e0) s) as [s1 o1]. cbn [fst] in H1.
    pose proof (mids_keep_start mids s1 Hmid) as H2.
    destruct (run props mids s1) as [s2 o2]. cbn [fst] in *.
    rewrite H2, H1. reflexivity. }
  fold before in Hm2, Hd2.
  destruct (pointerMove_tracks before e _ Ho Hm2 Hd2 Hst) as (H1 & H2 & H3).
  cbn [start_x start_sl] in H1. fold r in H1, H2, H3.
  split; [exact H1|]. split; [|split; assumption].
  intros Hx. rewrite H1, Hx. ring.
Qed.

End PointerMoves.

(** ** Orientation, mounting and navigation *)

Section Guards.

Variable props : NativeProps.

Lemma vertical_dispatch (i : Input) (s : Pager) :
  orientation props = vertical ->
  timeouts s = [] ->
  let r := dispatch props i s in
  timeouts (fst r) = []
  /\ draggingRef (fst r) = draggingRef s
  /\ restoreRef (fst r) = restoreRef s
  /\ body_userSelect (fst r) = body_userSelect s
  /\ style_cursor (scroller (fst r)) = style_cursor (scroller s)
  /\ stateEvents (snd r) = []
  /\ pageScrolls (snd r) = []
  /\ faults (snd r) = [].
Proof.
  intros Ho Ht. destruct i; cbn [dispatch]; unfold elapse;
    concrete s; exec; repeat split; reflexivity.
Qed.

Lemma vertical_run (inputs : list Input) (s : Pager) :
  orientation props = vertical ->
  timeouts s = [] ->
  let r := run props inputs s in
  timeouts (fst r) = []
  /\ draggingRef (fst r) = draggingRef s
  /\ restoreRef (fst r) = restoreRef s
  /\ body_userSelect (fst r) = body_userSelect s
  /\ style_cursor (scroller (fst r)) = style_cursor (scroller s)
  /\ stateEvents (snd r) = []
  /\ pageScrolls (snd r) = []
  /\ faults (snd r) = [].
Proof.
  intros Ho. revert s. induction inputs as [|i inputs IH]; intros s Ht;
    cbn [run fst snd]; [repeat split; auto|].
  pose proof (vertical_dispatch i s Ho Ht)
    as (H1 & H2 & H3 & H4 & H5 & H6 & H7 & H8).
  destruct (dispatch props i s) as [s1 o1]. cbn [fst snd] in *.
  specialize (IH s1 H1). destruct (run props inputs s1) as [s2 o2].
  cbn [fst snd] in *. destruct IH as (I1 & I2 & I3 & I4 & I5 & I6 & I7 & I8).
  rewrite stateEvents_app, pageScrolls_app, faults_app.
  rewrite H6, H7, H8, I6, I7, I8.
  repeat split; congruence.
Qed.

(** X5.  A vertical pager has no gesture and no scroll handling: with
    [orientation = vertical] and no timeout pending (as at mount), no input
    sequence ever emits onPageScroll or onPageScrollStateChanged, starts a
    drag, touches the body's user-select or the cursor, arms the settle
    timer or faults; what remains is navigation, whose scroll command is
    still the horizontal offset [index * (clientWidth + pageMargin)]. *)
Theorem vertical_pager_only_navigates (inputs : list Input) (s : Pager) :
  orientation props = vertical ->
  timeouts s = [] ->
  let r := run props inputs s in
  stateEvents (snd r) = []
  /\ pageScrolls (snd r) = []
  /\ faults (snd r) = []
  /\ timeouts (fst r) = []
  /\ draggingRef (fst r) = draggingRef s
  /\ body_userSelect (fst r) = body_userSelect s
  /\ style_cursor (scroller (fst r)) = style_cursor (scroller s)
  /\ (forall index, scrollerRef s = true ->
        scrollCommands (snd (dispatch props (SetPage index) s))
        = [(signed props (inject_Z (target props index) * stepOf props s),
            behavior_smooth)]).
Proof.
  intros Ho Ht.
  destruct (vertical_run inputs s Ho Ht) as (H1 & H2 & _ & H4 & H5 & H6 & H7 & H8).
  cbv zeta. repeat (split; [assumption|]).
  intros index Hm. cbn [dispatch]. unfold task, setPage.
  rewrite (scrollTo_mounted props s index true Hm).
  cbn [emitted completion snd]. rewrite app_nil_r. cbn [scrollCommands].
  destruct (currentIndexRef s =? target props index); [reflexivity|].
  destruct (onPageSelected props); reflexivity.
Qed.

(** X6.  With the scroller ref null: navigation, pointer-down and
    pointer-move are no-ops (no commit, no event); snapToNearest faults on
    the null dereference in getMetrics, so the settle callback emits
    settling and then faults: no idle follows, no scroll command is issued
    and the state is unchanged. *)
Theorem unmounted_pager_behaviour
  (s : Pager) (index : Z) (animated : bool) (e : PointerEvent) :
  scrollerRef s = false ->
  scrollTo props index animated s = mkOutcome s [] (Normal tt)
  /\ dispatch props (PointerDown e) s = (s, [])
  /\ dispatch props (PointerMove e) s = (s, [])
  /\ snapToNearest props animated s = mkOutcome s [] (Abrupt NullDereference)
  /\ settleCallback props s
     = mkOutcome s (stateNote props settling) (Abrupt NullDereference)
  /\ snd (task (settleCallback props) s)
     = stateNote props settling ++ [Uncaught NullDereference].
Proof.
  intros Hm. unfold stateNote.
  repeat split; cbn [dispatch]; concrete s; exec; reflexivity.
Qed.

(** X7.  A navigation (the mount frame, setPage, setPageWithoutAnimation)
    writes no ref but the committed index and reaches the host only through
    the el.scrollTo command it issues, one on a mounted scroller and none
    otherwise: the drag session, the saved styles, the body's user-select,
    the scroller's cursor and pointer capture and the timers are as before,
    and its log holds no onPageScroll, no onPageScrollStateChanged and no
    fault.  Where the scroll offset goes is left to that command. *)
Theorem navigation_writes_only_committed_index (i : Input) (s : Pager) :
  navigates i = true ->
  let r := dispatch props i s in
  scrollEnabledRef (fst r) = scrollEnabledRef s
  /\ draggingRef (fst r) = draggingRef s
  /\ startRef (fst r) = startRef s
  /\ restoreRef (fst r) = restoreRef s
  /\ settleTimer (fst r) = settleTimer s
  /\ timeouts (fst r) = timeouts s
  /\ body_userSelect (fst r) = body_userSelect s
  /\ style_cursor (scroller (fst r)) = style_cursor (scroller s)
  /\ pointerCapture (scroller (fst r)) = pointerCapture (scroller s)
  /\ stateEvents (snd r) = []
  /\ pageScrolls (snd r) = []
  /\ faults (snd r) = []
  /\ List.length (scrollCommands (snd r)) = (if scrollerRef s then 1 else 0)%nat.
Proof.
  intros Hi. destruct i; try discriminate Hi; cbn [dispatch];
    concrete s; exec; repeat split; try reflexivity; congruence.
Qed.

End Guards.

(** ** Properties of every log *)

Lemma last_default_irrelevant (p q x : Z) (a : list Z) :
  last (x :: a) p = last (x :: a) q.
Proof.
  revert x. induction a as [|y a IH]; intros x; [reflexivity|].
  change (last (y :: a) p = last (y :: a) q). apply IH.
Qed.

Lemma changes_app (p : Z) (a b : list Z) :
  changes p (a ++ b) = changes p a && changes (last a p) b.
Proof.
  revert p. induction a as [|x a IH]; intros p; [reflexivity|].
  cbn [app changes]. rewrite IH, andb_assoc.
  destruct a as [|y a]; [reflexivity|].
  change (last (x :: y :: a) p) with (last (y :: a) p).
  rewrite (last_default_irrelevant p x y a). reflexivity.
Qed.

Lemma last_app_inner (p : Z) (a b : list Z) :
  last (a ++ b) p = last b (last a p).
Proof.
  revert p. induction a as [|x a IH]; intros p; [reflexivity|].
  destruct a as [|y a].
  - cbn [app]. destruct b as [|z b]; [reflexivity|].
    change (last (x :: z :: b) p) with (last (z :: b) p).
    apply last_default_irrelevant.
  - change (last ((x :: y :: a) ++ b) p) with (last ((y :: a) ++ b) p).
    change (last (x :: y :: a) p) with (last (y :: a) p).
    rewrite (IH p). reflexivity.
Qed.

Lemma bracketed_app (a b : list PageScrollState) :
  bracketed a = true -> bracketed b = true -> bracketed (a ++ b) = true.
Proof.
  intros Ha Hb.
  assert (H : forall n a, (List.length a <= n)%nat ->
                bracketed a = true -> bracketed (a ++ b) = true).
  { clear a Ha. induction n as [|n IH]; intros a Hn Ha.
    - destruct a; [exact Hb | cbn in Hn; lia].
    - destruct a as [|[| |] a]; cbn [app bracketed] in *.
      + exact Hb.
      + discriminate Ha.
      + apply IH; [cbn in Hn; lia | exact Ha].
      + destruct a as [|[| |] a]; try discriminate Ha.
        cbn [app]. apply IH; [cbn in Hn; lia | exact Ha]. }
  apply (H (List.length a) a (Nat.le_refl _) Ha).
Qed.

Section Logs.

Variable props : NativeProps.

Ltac selects_done :=
  unfold selects; msimpl; cbn [selections changes last];
  repeat match goal with
         | H : negb _ = true |- _ => rewrite H
         end;
  repeat split;
  try reflexivity; try (intros; congruence);
  repeat (constructor; try apply target_range).

Lemma settle_task_selects (h : nat) (s : Pager) :
  selects props s (fst (task (clearTimeout h ;; settleCallback props) s))
            (snd (task (clearTimeout h ;; settleCallback props) s)).
Proof. concrete s. exec; selects_done. Qed.

Lemma selects_trans (s s1 s2 : Pager) (o1 o2 : list Effect) :
  selects props s s1 o1 -> selects props s1 s2 o2 -> selects props s s2 (o1 ++ o2).
Proof.
  intros (A1 & A2 & A3 & A4) (B1 & B2 & B3 & B4).
  unfold selects. rewrite selections_app.
  destruct (onPageSelected props) eqn:E.
  - specialize (A3 eq_refl). specialize (B3 eq_refl).
    split; [rewrite changes_app, A1, A3, B1; reflexivity|].
    split; [apply Forall_app; split; assumption|].
    split; [|intros H; discriminate H].
    intros _. rewrite last_app_inner, A3. exact B3.
  - rewrite (A4 eq_refl), (B4 eq_refl). cbn [app changes last].
    repeat split; try constructor. intros H; discriminate H.
Qed.

Lemma selects_refl (s : Pager) : selects props s s [].
Proof. unfold selects. cbn. repeat split; constructor. Qed.

Lemma fire_selects (due : list (nat * N)) (s : Pager) :
  selects props s (fst (fire props due s)) (snd (fire props due s)).
Proof.
  revert s. induction due as [|[h d] due IH]; intros s; cbn [fire];
    [apply selects_refl|].
  destruct (pending h s); [|apply IH].
  pose proof (settle_task_selects h s) as H1.
  destruct (task _ s) as [s1 o1]. cbn [fst snd] in H1.
  specialize (IH s1). destruct (fire props due s1) as [s2 o2].
  cbn [fst snd] in *. eapply selects_trans; eassumption.
Qed.

Lemma dispatch_selects (i : Input) (s : Pager) :
  selects props s (fst (dispatch props i s)) (snd (dispatch props i s)).
Proof.
  destruct i; cbn [dispatch];
    try (unfold elapse; apply (fire_selects _ (set_now _ s)));
    concrete s; exec; selects_done.
Qed.

Lemma run_selects (inputs : list Input) (s : Pager) :
  selects props s (fst (run props inputs s)) (snd (run props inputs s)).
Proof.
  revert s. induction inputs as [|i inputs IH]; intros s; cbn [run];
    [apply selects_refl|].
  pose proof (dispatch_selects i s) as H1.
  destruct (dispatch props i s) as [s1 o1]. cbn [fst snd] in H1.
  specialize (IH s1). destruct (run props inputs s1) as [s2 o2].
  cbn [fst snd] in *. eapply selects_trans; eassumption.
Qed.

(** X8.  Over any input sequence from any state, onPageSelected never
    repeats: each event carries an index different from the one committed
    before it (the starting committed index for the first, the previous
    event's index after that), every index is a page index in
    [0, max(0, pageCount-1)], and when the observer is supplied the last
    event carries the index committed at the end. *)
Theorem selections_never_repeat (inputs : list Input) (s : Pager) :
  let r := run props inputs s in
  changes (currentIndexRef s) (selections (snd r)) = true
  /\ Forall (fun k => 0 <= k <= lastIndex props) (selections (snd r))
  /\ (onPageSelected props = true ->
      last (selections (snd r)) (currentIndexRef s) = currentIndexRef (fst r)).
Proof.
  destruct (run_selects inputs s) as (H1 & H2 & H3 & _). auto.
Qed.

End Logs.

Section Traces.

Variable props : NativeProps.

(* Timer tasks write the committed index and the timeout queue only. *)
Lemma fire_frame (due : list (nat * N)) (s : Pager) :
  exists idx ts,
    fst (fire props due s) = set_currentIndexRef idx (set_timeouts ts s).
Proof.
  revert s. induction due as [|[h d] due IH]; intros s; cbn [fire fst].
  - exists (currentIndexRef s), (timeouts s). destruct s; reflexivity.
  - destruct (pending h s); [|apply IH].
    pose proof (settle_task_frame props h s) as H1.
    destruct (task _ s) as [s1 o1]. cbn [fst] in H1.
    destruct (IH s1) as (idx & ts & H2). destruct (fire props due s1) as [s2 o2].
    cbn [fst] in *. exists idx, ts. rewrite H2, H1. reflexivity.
Qed.

Lemma elapse_frame (d : N) (s : Pager) :
  exists idx ts,
    fst (elapse props d s)
    = set_currentIndexRef idx (set_timeouts ts (set_now (now s + d)%N s)).
Proof. unfold elapse. apply fire_frame. Qed.

Lemma dispatch_mounted (i : Input) (s : Pager) :
  scrollerRef (fst (dispatch props i s)) = scrollerRef s.
Proof.
  destruct i; cbn [dispatch];
    try (destruct (elapse_frame d s) as (idx & ts & ->); reflexivity);
    concrete s; exec; reflexivity.
Qed.

(** *** Scroll commands are page boundaries *)

Ltac boundary_done :=
  cbn [scrollCommands]; repeat constructor; cbn [fst];
  unfold atBoundary, signed, stepOf; msimpl;
  repeat match goal with
         | H : layoutDirection _ = _ |- _ => rewrite H
         end;
  eexists; (split; [|reflexivity]); apply target_range.

Lemma settle_task_boundaries (h : nat) (s : Pager) :
  Forall (fun c => atBoundary props s (fst c))
    (scrollCommands (snd (task (clearTimeout h ;; settleCallback props) s))).
Proof. concrete s. exec; boundary_done. Qed.

Lemma fire_boundaries (due : list (nat * N)) (s : Pager) :
  Forall (fun c => atBoundary props s (fst c))
    (scrollCommands (snd (fire props due s))).
Proof.
  revert s. induction due as [|[h d] due IH]; intros s; cbn [fire snd];
    [constructor|].
  destruct (pending h s); [|apply IH].
  pose proof (settle_task_boundaries h s) as H1.
  pose proof (settle_task_frame props h s) as H2.
  destruct (task _ s) as [s1 o1]. cbn [fst snd] in *.
  specialize (IH s1). destruct (fire props due s1) as [s2 o2]. cbn [snd] in *.
  rewrite scrollCommands_app. apply Forall_app. split; [exact H1|].
  replace (atBoundary props s) with (atBoundary props s1); [exact IH|].
  unfold atBoundary, stepOf. rewrite H2. reflexivity.
Qed.

(** X9.  Whatever the input and the state, every scroll command the pager
    issues goes to a page boundary: its [left] is [k * step] (negated under
    RTL) for a page index [0 <= k <= max(0, pageCount-1)] and the step of
    the scroller at that moment. *)
Theorem scroll_commands_are_page_boundaries (i : Input) (s : Pager) :
  Forall (fun c => atBoundary props s (fst c))
    (scrollCommands (snd (dispatch props i s))).
Proof.
  destruct i; cbn [dispatch];
    try (unfold elapse; apply (fire_boundaries _ (set_now _ s)));
    concrete s; exec; boundary_done.
Qed.

(** *** Scroll-state events come in blocks *)

Lemma settle_task_bracketed (h : nat) (s : Pager) :
  scrollerRef s = true ->
  bracketed
    (stateEvents (snd (task (clearTimeout h ;; settleCallback props) s))) = true.
Proof. intros Hm. concrete s. exec; reflexivity. Qed.

Lemma fire_bracketed (due : list (nat * N)) (s : Pager) :
  scrollerRef s = true ->
  bracketed (stateEvents (snd (fire props due s))) = true.
Proof.
  revert s. induction due as [|[h d] due IH]; intros s Hm; cbn [fire snd];
    [reflexivity|].
  destruct (pending h s); [|apply IH, Hm].
  pose proof (settle_task_bracketed h s Hm) as H1.
  pose proof (settle_task_frame props h s) as H2.
  destruct (task _ s) as [s1 o1]. cbn [fst snd] in *.
  assert (Hm1 : scrollerRef s1 = true) by (rewrite H2; exact Hm).
  specialize (IH s1 Hm1). destruct (fire props due s1) as [s2 o2]. cbn [snd] in *.
  rewrite stateEvents_app. apply bracketed_app; assumption.
Qed.

Lemma dispatch_bracketed (i : Input) (s : Pager) :
  scrollerRef s = true ->
  bracketed (stateEvents (snd (dispatch props i s))) = true.
Proof.
  intros Hm. destruct i; cbn [dispatch];
    try (unfold elapse; apply (fire_bracketed _ (set_now _ s)); exact Hm);
    concrete s; exec; reflexivity.
Qed.

(** X10.  On a mounted scroller the onPageScrollStateChanged events of any
    input sequence are a concatenation of the blocks [dragging] and
    [settling; idle]: settling is always followed at once by idle, idle
    never comes without a settling before it. *)
Theorem scroll_state_events_come_in_blocks (inputs : list Input) (s : Pager) :
  scrollerRef s = true ->
  bracketed (stateEvents (snd (run props inputs s))) = true.
Proof.
  revert s. induction inputs as [|i inputs IH]; intros s Hm; cbn [run snd];
    [reflexivity|].
  pose proof (dispatch_bracketed i s Hm) as H1.
  pose proof (dispatch_mounted i s) as H2.
  destruct (dispatch props i s) as [s1 o1]. cbn [fst snd] in *.
  rewrite Hm in H2. specialize (IH s1 H2).
  destruct (run props inputs s1) as [s2 o2]. cbn [snd] in *.
  rewrite stateEvents_app. apply bracketed_app; assumption.
Qed.

(** *** The drag session and its saved values *)

Lemma dispatch_session (i : Input) (s : Pager) :
  scrollerRef s = true ->
  session_consistent s ->
  session_consistent (fst (dispatch props i s)).
Proof.
  intros Hm. destruct i; cbn [dispatch];
    try (destruct (elapse_frame d s) as (idx & ts & ->);
         unfold session_consistent; destruct s; exact (fun H => H));
    unfold session_consistent; concrete s; intros H;
    match type of H with (if ?d then _ else _) => destruct d end;
    exec; intuition congruence.
Qed.

(** X11.  In every state a mounted pager reaches, draggingRef tells what
    is saved: while it is set, the drag start and the restore values are
    saved and the body's user-select is 'none' and the cursor 'grabbing';
    while it is clear, neither a drag start nor restore values are kept. *)
Theorem drag_flag_tracks_saved_state
  (el : HTMLDivElement) (us : string) (inputs : list Input) :
  session_consistent (fst (run props inputs (mount props el us))).
Proof.
  assert (H : forall inputs s, scrollerRef s = true -> session_consistent s ->
                session_consistent (fst (run props inputs s))).
  { clear inputs. induction inputs as [|i inputs IH]; intros s Hm Hs;
      cbn [run fst]; [exact Hs|].
    pose proof (dispatch_session i s Hm Hs) as H1.
    pose proof (dispatch_mounted i s) as H2.
    destruct (dispatch props i s) as [s1 o1]. cbn [fst] in *.
    rewrite Hm in H2. specialize (IH s1 H2 H1).
    destruct (run props inputs s1). exact IH. }
  apply H; [reflexivity|]. split; reflexivity.
Qed.

Lemma dispatch_suppressed (i : Input) (s : Pager) :
  suppressed s -> suppressed (fst (dispatch props i s)).
Proof.
  destruct i; cbn [dispatch];
    try (destruct (elapse_frame d s) as (idx & ts & ->);
         unfold suppressed; destruct s; exact (fun H => H));
    unfold suppressed; intros [Hb Hr]; concrete s;
    exec; split; try reflexivity; try exact Hr;
    try (apply (Hr _ eq_refl));
    try (let E := fresh in
         intros ? E; first [discriminate E | inversion E; reflexivity]).
Qed.

(** X12.  Suppressed text selection is never given back: once the body's
    user-select is 'none' with no other value saved to restore (the state the
    nested pointer-down of C10 leaves behind), it is 'none' after every
    further input sequence. *)
Theorem suppressed_selection_is_permanent (inputs : list Input) (s : Pager) :
  body_userSelect s = "none"%string ->
  restoreRef s = None ->
  body_userSelect (fst (run props inputs s)) = "none"%string.
Proof.
  intros Hb Hr.
  assert (H : forall inputs s, suppressed s ->
                suppressed (fst (run props inputs s))).
  { clear. induction inputs as [|i inputs IH]; intros s Hs; cbn [run fst];
      [exact Hs|].
    pose proof (dispatch_suppressed i s Hs) as H1.
    destruct (dispatch props i s) as [s1 o1]. cbn [fst] in *.
    specialize (IH s1 H1). destruct (run props inputs s1). exact IH. }
  apply H. split; [exact Hb|]. intros r E. congruence.
Qed.

End Traces.

Section Composition.

Variable props : NativeProps.

(** *** Gestures switched off *)

Lemma settle_task_no_dragging (h : nat) (s : Pager) :
  ~ In dragging
      (stateEvents (snd (task (clearTimeout h ;; settleCallback props) s))).
Proof. concrete s. exec; cbn; intuition discriminate. Qed.

Lemma fire_no_dragging (due : list (nat * N)) (s : Pager) :
  ~ In dragging (stateEvents (snd (fire props due s))).
Proof.
  revert s. induction due as [|[h d] due IH]; intros s; cbn [fire snd];
    [intros []|].
  destruct (pending h s); [|apply IH].
  pose proof (settle_task_no_dragging h s) as H1.
  destruct (task _ s) as [s1 o1]. cbn [snd] in *.
  specialize (IH s1). destruct (fire props due s1) as [s2 o2]. cbn [snd] in *.
  rewrite stateEvents_app, in_app_iff. tauto.
Qed.

Lemma dispatch_disabled (i : Input) (s : Pager) :
  enables i = false ->
  scrollEnabledRef s = false ->
  draggingRef s = false ->
  let r := dispatch props i s in
  scrollEnabledRef (fst r) = false
  /\ draggingRef (fst r) = false
  /\ body_userSelect (fst r) = body_userSelect s
  /\ style_cursor (scroller (fst r)) = style_cursor (scroller s)
  /\ ~ In dragging (stateEvents (snd r)).
Proof.
  intros Hi He Hd. destruct i; cbn [dispatch].
  11: { destruct (elapse_frame props d s) as (idx & ts & ->).
        repeat (split; [first [exact He | exact Hd | reflexivity]|]).
        apply fire_no_dragging. }
  4: { destruct enabled; [discriminate Hi|].
       concrete s. exec; repeat split; try reflexivity; cbn; tauto. }
  all: concrete s; exec; repeat split; try reflexivity; cbn; intuition discriminate.
Qed.

(** X13.  While gestures are switched off, no drag starts: from a state
    with scrollEnabledRef false and no drag in progress, a pointer-down is a
    no-op, and over any inputs that do not switch gestures back on
    ([setScrollEnabled(true)]) draggingRef stays clear, no dragging event is
    emitted and the body's user-select and the cursor are left alone. *)
Theorem disabled_gestures_start_no_drag
  (inputs : list Input) (s : Pager) (e : PointerEvent) :
  forallb (fun i => negb (enables i)) inputs = true ->
  scrollEnabledRef s = false ->
  draggingRef s = false ->
  let r := run props inputs s in
  dispatch props (PointerDown e) s = (s, [])
  /\ draggingRef (fst r) = false
  /\ ~ In dragging (stateEvents (snd r))
  /\ body_userSelect (fst r) = body_userSelect s
  /\ style_cursor (scroller (fst r)) = style_cursor (scroller s).
Proof.
  intros Hin He Hd. cbv zeta. split.
  { cbn [dispatch]. concrete s. exec; reflexivity. }
  revert s He Hd. induction inputs as [|i inputs IH]; intros s He Hd;
    cbn [run fst snd].
  - repeat split; auto.
  - cbn [forallb] in Hin. apply andb_true_iff in Hin. destruct Hin as [Hi Hin].
    apply negb_true_iff in Hi.
    pose proof (dispatch_disabled i s Hi He Hd) as (H1 & H2 & H3 & H4 & H5).
    destruct (dispatch props i s) as [s1 o1]. cbn [fst snd] in *.
    specialize (IH Hin s1 H1 H2). destruct (run props inputs s1) as [s2 o2].
    cbn [fst snd] in *. destruct IH as (I2 & I5 & I3 & I4).
    split; [exact I2|]. split; [|split; congruence].
    rewrite stateEvents_app, in_app_iff. tauto.
Qed.

(** *** A pointer-down inside the quiescence window *)

Lemma scrolled_keeps_enabled (x : Q) (s : Pager) :
  scrollEnabledRef (fst (dispatch props (Scrolled x) s)) = scrollEnabledRef s.
Proof. cbn [dispatch]. concrete s. exec; reflexivity. Qed.

(** X14.  A pointer-down cancels the pending settle: on a mounted
    horizontal pager with the state observer, after a passive scroll tick a
    pointer-down inside the 120 ms window clears the timeout, so however much
    time passes during the drag the log shows dragging and no settling or
    idle, and no timeout is pending. *)
Theorem pointer_down_cancels_pending_settle
  (s : Pager) (x : Q) (e : PointerEvent) (mids : list Input) :
  orientation props = horizontal ->
  onPageScrollStateChanged props = true ->
  scrollerRef s = true ->
  scrollEnabledRef s = true ->
  draggingRef s = false ->
  timers_ok s ->
  forallb midDrag mids = true ->
  let ticked := fst (dispatch props (Scrolled x) s) in
  let r := run props (Scrolled x :: PointerDown e :: mids) s in
  timeouts ticked = [(nextHandle s, (now s + 120)%N)]
  /\ stateEvents (snd r) = [dragging]
  /\ timeouts (fst r) = [].
Proof.
  intros Ho Hobs Hm He Hd Hok Hmid ticked r.
  pose proof (scroll_tick props s x Ho Hm Hd Hok) as (Ht & _ & _ & Hm1 & _ & Hq).
  pose proof (dispatch_timers props (Scrolled x) s Hok) as Hok1.
  pose proof (scrolled_keeps_enabled x s) as He1.
  split; [exact Ht|]. subst r ticked. cbn [run].
  destruct (dispatch props (Scrolled x) s) as [s1 o1]. cbn [fst snd] in *.
  rewrite He in He1.
  pose proof (session_open props s1 e mids Ho He1 Hm1 Hmid) as (_ & _ & _ & Hs).
  destruct (Hs Hok1) as [Ht2 Hq2]. cbn [run] in Ht2, Hq2.
  destruct (dispatch props (PointerDown e) s1) as [s2 o2].
  destruct (run props mids s2) as [s3 o3]. cbn [fst snd] in *.
  split; [|exact Ht2].
  rewrite stateEvents_app, Hq, Hq2.
  rewrite (stateEvents_stateNote props dragging Hobs). reflexivity.
Qed.

(** *** The settle that follows a navigation *)

Lemma scroll_tick_state (s : Pager) (x : Q) :
  orientation props = horizontal ->
  scrollerRef s = true ->
  draggingRef s = false ->
  timers_ok s ->
  dispatch props (Scrolled x) s
  = (armed x s,
     emitted (emitPageScroll props
                (set_scroller (set_scrollLeft x (scroller s)) s))).
Proof.
  intros Ho Hm Hd. cbn [dispatch]. unfold timers_ok, armed.
  concrete s. intros [Hall Hlen].
  exec; first [ rewrite (filter_named _ _ Hall) | rewrite (unnamed_nil _ Hall) ];
    cbn [app]; reflexivity.
Qed.

Lemma elapse_due_state (s : Pager) (h : nat) (deadline d : N) :
  timeouts s = [(h, deadline)] ->
  scrollerRef s = true ->
  (deadline <= now s + d)%N ->
  let st := set_timeouts [] (set_now (now s + d)%N s) in
  elapse props d s
  = (final (snapToNearest props true st),
     stateNote props settling
       ++ emitted (snapToNearest props true st) ++ stateNote props idle).
Proof.
  intros Ht Hm Hle st. unfold elapse. rewrite Ht. cbn [filter snd].
  destruct (N.leb_spec deadline (now s + d)); [|lia].
  cbn [fire]. unfold pending. cbn [timeouts set_now]. rewrite Ht.
  cbn [existsb fst]. rewrite Nat.eqb_refl. cbn [orb].
  unfold task.
  rewrite (bind_normal (clearTimeout h) _ (set_now (now s + d)%N s) tt eq_refl).
  assert (E : final (clearTimeout h (set_now (now s + d)%N s)) = st).
  { unfold st, clearTimeout, modify. cbn [final timeouts set_now]. rewrite Ht.
    cbn [filter fst]. rewrite Nat.eqb_refl. reflexivity. }
  rewrite E. rewrite (settleCallback_mounted props st Hm).
  cbn [emitted completion final app]. rewrite !app_nil_r. reflexivity.
Qed.

Lemma stateNote_silent (st : PageScrollState) :
  selections (stateNote props st) = []
  /\ scrollCommands (stateNote props st) = [].
Proof. unfold stateNote. destruct (onPageScrollStateChanged props); auto. Qed.

Lemma emitPageScroll_silent (s : Pager) :
  selections (emitted (emitPageScroll props s)) = []
  /\ scrollCommands (emitted (emitPageScroll props s)) = [].
Proof. concrete s. exec; auto. Qed.

(** X15.  The settle that follows a navigation moves nothing: on a mounted
    horizontal pager with [step > 0], once a navigation to [index] has been
    carried out by the host (a scroll event at the commanded offset) and
    120 ms or more have passed, the timer's snap commands that same offset
    again, as a smooth scroll, and selects no page; the committed index
    stays the navigation's target. *)
Theorem settle_after_navigation_reissues_target
  (s : Pager) (index : Z) (animated : bool) (d : N) :
  orientation props = horizontal ->
  scrollerRef s = true ->
  draggingRef s = false ->
  timers_ok s ->
  (0 < stepOf props s)%Q ->
  (120 <= d)%N ->
  let x := signed props (inject_Z (target props index) * stepOf props s) in
  let navigated := final (scrollTo props index animated s) in
  let r := run props [Scrolled x; Elapse d] navigated in
  scrollCommands (emitted (scrollTo props index animated s))
    = [(x, behaviorOf animated)]
  /\ scrollCommands (snd r) = [(x, behavior_smooth)]
  /\ selections (snd r) = []
  /\ currentIndexRef (fst r) = target props index.
Proof.
  intros Ho Hm Hd Hok Hpos Hquiet x navigated r.
  pose proof (Qeq_bool_pos _ Hpos) as Hb.
  pose proof (target_range props index) as Hr.
  assert (Hnav : navigated = set_currentIndexRef (target props index) s).
  { unfold navigated. rewrite (scrollTo_frame props s index animated).
    rewrite (scrollTo_mounted props s index animated Hm). cbn [final].
    destruct (currentIndexRef s =? target props index) eqn:E; [|reflexivity].
    apply Z.eqb_eq in E. rewrite E. reflexivity. }
  split.
  { rewrite (scrollTo_mounted props s index animated Hm). cbn [emitted scrollCommands].
    destruct (currentIndexRef s =? target props index); [reflexivity|].
    destruct (onPageSelected props); reflexivity. }
  assert (Hm1 : scrollerRef navigated = true) by (rewrite Hnav; exact Hm).
  assert (Hd1 : draggingRef navigated = false) by (rewrite Hnav; exact Hd).
  assert (Hok1 : timers_ok navigated) by (rewrite Hnav; exact Hok).
  subst r. cbn [run].
  rewrite (scroll_tick_state navigated x Ho Hm1 Hd1 Hok1). cbn [dispatch].
  set (at_x := armed x navigated).
  assert (Hdue : (now navigated + 120 <= now at_x + d)%N)
    by (unfold at_x, armed; cbn; lia).
  rewrite (elapse_due_state at_x (nextHandle navigated) _ d eq_refl Hm1 Hdue).
  set (st := set_timeouts [] (set_now (now at_x + d)%N at_x)).
  assert (Hst_m : scrollerRef st = true) by exact Hm1.
  assert (Hst_step : stepOf props st = stepOf props s)
    by (unfold st, at_x, armed, stepOf; rewrite Hnav; reflexivity).
  assert (Hst_cur : currentIndexRef st = target props index)
    by (unfold st, at_x, armed; rewrite Hnav; reflexivity).
  assert (Hst_raw : (rawOf st == inject_Z (target props index) * stepOf props st)%Q).
  { rewrite Hst_step. change (rawOf st) with (Math.abs x). unfold x.
    apply signed_abs, boundary_nonneg; [apply Hr | apply Qlt_le_weak, Hpos]. }
  assert (Hpos' : (0 < stepOf props st)%Q) by (rewrite Hst_step; exact Hpos).
  pose proof (snapIndex_at_boundary props st _ Hpos' Hr Hst_raw) as Hidx.
  rewrite (snapToNearest_mounted props st true Hst_m), Hst_step, Hb, Hidx.
  rewrite (scrollTo_mounted props st _ true Hst_m).
  rewrite (target_fixed props _ Hr), Hst_cur, Z.eqb_refl, Hst_step.
  cbn [fst snd final emitted]. rewrite ?app_nil_r.
  destruct (stateNote_silent settling) as [S1 C1].
  destruct (stateNote_silent idle) as [S2 C2].
  destruct (emitPageScroll_silent
              (set_scroller (set_scrollLeft x (scroller navigated)) navigated))
    as [S0 C0].
  rewrite !scrollCommands_app, !selections_app, S0, S1, S2, C0, C1, C2.
  cbn [app scrollCommands selections]. rewrite ?app_nil_r.
  split; [reflexivity|]. split; [reflexivity | exact Hst_cur].
Qed.

End Composition.

(** ** Edge cases *)

(** X16.  [clamp] on integers: inside a proper range [a <= b] the result
    lies in the range, is the value itself when that is in the range, and
    clamping is idempotent and monotone; on an inverted range [b < a] the
    lower bound wins. *)
Theorem clamp_bounds_idempotent_monotone (v w a b : Z) :
  (a <= b -> a <= clamp v a b <= b)
  /\ (a <= v <= b -> clamp v a b = v)
  /\ clamp (clamp v a b) a b = clamp v a b
  /\ (v <= w -> clamp v a b <= clamp w a b)
  /\ (b < a -> clamp v a b = a).
Proof. rewrite !clamp_Z. repeat split; lia. Qed.

Lemma abs_opp_eq (x : Q) : Math.abs (- x) = Math.abs x.
Proof.
  destruct x as [n d]. unfold Math.abs, Qabs, Qopp. cbn [Qnum Qden].
  rewrite Z.abs_opp. reflexivity.
Qed.

Lemma existsb_filter_self (id : Z) (l : list Z) :
  existsb (Z.eqb id) (filter (fun j => negb (id =? j)) l) = false.
Proof.
  induction l as [|j l IH]; [reflexivity|]. cbn [filter].
  destruct (id =? j) eqn:E; cbn [negb]; [exact IH|].
  cbn [existsb]. rewrite E, IH. reflexivity.
Qed.

Lemma existsb_filter_other (id id' : Z) (l : list Z) :
  id' <> id ->
  existsb (Z.eqb id) (filter (fun j => negb (id' =? j)) l)
  = existsb (Z.eqb id) l.
Proof.
  intros Hne. induction l as [|j l IH]; [reflexivity|]. cbn [filter existsb].
  destruct (id' =? j) eqn:E; cbn [negb existsb]; rewrite IH; [|reflexivity].
  apply Z.eqb_eq in E. subst j.
  destruct (id =? id') eqn:E'; [|reflexivity].
  apply Z.eqb_eq in E'. congruence.
Qed.

Section Edges.

Variable props : NativeProps.

(** X17.  The sign of the scroll offset is ignored: getMetrics takes
    [|scrollLeft|], so a scroller at [-x] reports the same onPageScroll pair
    and snaps to the same page with the same command as a scroller at
    [x]. *)
Theorem scroll_offset_sign_is_ignored (s : Pager) (x : Q) (animated : bool) :
  let at_x := set_scroller (set_scrollLeft x (scroller s)) s in
  let mirrored := set_scroller (set_scrollLeft (- x) (scroller s)) s in
  emitted (emitPageScroll props mirrored) = emitted (emitPageScroll props at_x)
  /\ snapIndex props mirrored = snapIndex props at_x
  /\ emitted (snapToNearest props animated mirrored)
     = emitted (snapToNearest props animated at_x).
Proof.
  cbv zeta. unfold snapIndex, rawOf, stepOf. concrete s.
  rewrite abs_opp_eq. split; [|split; [reflexivity|]];
    exec; rewrite ?abs_opp_eq in *; try reflexivity; congruence.
Qed.

(** X18.  With no page at all the range of indices is still [0, 0]: on a
    mounted scroller every navigation targets index 0 and offset 0, and if
    the committed index was not 0 (an [initialPage] other than 0) it commits
    0 and, with the observer supplied, fires onPageSelected for page 0,
    which does not exist. *)
Theorem empty_pager_navigates_to_index_zero
  (s : Pager) (index : Z) (animated : bool) :
  pageCount props = 0%nat ->
  scrollerRef s = true ->
  let r := scrollTo props index animated s in
  target props index = 0
  /\ (exists x, scrollCommands (emitted r) = [(x, behaviorOf animated)]
                /\ (x == 0)%Q)
  /\ currentIndexRef (final r) = 0
  /\ (onPageSelected props = true -> currentIndexRef s <> 0 ->
      selections (emitted r) = [0]).
Proof.
  intros Hn Hm r.
  assert (Ht : target props index = 0).
  { unfold target. rewrite clamp_Z, lastIndex_eq, Hn. cbn. lia. }
  subst r. rewrite (scrollTo_mounted props s index animated Hm), Ht.
  cbn [emitted final scrollCommands].
  split; [reflexivity|]. split; [|split].
  - eexists. split.
    + destruct (currentIndexRef s =? 0); [reflexivity|].
      destruct (onPageSelected props); reflexivity.
    + unfold signed. destruct (layoutDirection props); ring.
  - destruct (currentIndexRef s =? 0) eqn:E; [apply Z.eqb_eq, E | reflexivity].
  - intros Hobs Hne. apply Z.eqb_neq in Hne. rewrite Hne, Hobs. reflexivity.
Qed.

Lemma mid_keeps_capture (i : Input) (s : Pager) :
  midDrag i = true ->
  pointerCapture (scroller (fst (dispatch props i s))) = pointerCapture (scroller s).
Proof.
  intros Hi. destruct i; try discriminate Hi; cbn [dispatch];
    try (destruct (elapse_frame props d s) as (idx & ts & ->); reflexivity);
    concrete s; exec; reflexivity.
Qed.

Lemma mids_keep_capture (mids : list Input) (s : Pager) :
  forallb midDrag mids = true ->
  pointerCapture (scroller (fst (run props mids s))) = pointerCapture (scroller s).
Proof.
  revert s. induction mids as [|i mids IH]; intros s H; cbn [run fst]; [reflexivity|].
  cbn [forallb] in H. apply andb_true_iff in H. destruct H as [Hi H].
  pose proof (mid_keeps_capture i s Hi) as H1.
  destruct (dispatch props i s) as [s1 o1]. cbn [fst] in H1.
  specialize (IH s1 H). destruct (run props mids s1) as [s2 o2].
  cbn [fst] in *. congruence.
Qed.

Lemma pointerDown_captures (s : Pager) (e : PointerEvent) :
  orientation props = horizontal ->
  scrollEnabledRef s = true ->
  scrollerRef s = true ->
  pointerCapture (scroller (fst (dispatch props (PointerDown e) s)))
  = pointerId e :: pointerCapture (scroller s).
Proof. intros Ho He Hm. cbn [dispatch]. concrete s. exec; reflexivity. Qed.

Lemma release_capture (i : Input) (e : PointerEvent) (s : Pager) :
  i = PointerUp e \/ i = PointerCancel e ->
  orientation props = horizontal ->
  scrollerRef s = true ->
  draggingRef s = true ->
  pointerCapture (scroller (fst (dispatch props i s)))
  = if hasPointerCapture (pointerId e) (scroller s)
    then filter (fun j => negb (pointerId e =? j)) (pointerCapture (scroller s))
    else pointerCapture (scroller s).
Proof.
  intros [-> | ->] Ho Hm Hd; cbn [dispatch]; handlers;
    unfold hasPointerCapture; concrete s; exec; reflexivity.
Qed.

(** X19.  endDrag releases the capture of the pointer that ends the
    session: after a session begun by pointer [e0] (which captures it) and
    ended by a pointer-up or pointer-cancel of pointer [e1], the scroller
    holds no capture for [e1]; if [e1] is another pointer than [e0], the
    capture taken for [e0] is still held. *)
Theorem drag_end_releases_ending_pointer
  (s : Pager) (e0 e1 : PointerEvent) (mids : list Input) (ending : Input) :
  orientation props = horizontal ->
  scrollEnabledRef s = true ->
  scrollerRef s = true ->
  forallb midDrag mids = true ->
  ending = PointerUp e1 \/ ending = PointerCancel e1 ->
  let down := fst (dispatch props (PointerDown e0) s) in
  let after := fst (run props (PointerDown e0 :: mids ++ [ending]) s) in
  hasPointerCapture (pointerId e0) (scroller down) = true
  /\ hasPointerCapture (pointerId e1) (scroller after) = false
  /\ (pointerId e1 <> pointerId e0 ->
      hasPointerCapture (pointerId e0) (scroller after) = true).
Proof.
  intros Ho He Hm Hmid Hend down after.
  pose proof (pointerDown_captures s e0 Ho He Hm) as Hc0. fold down in Hc0.
  assert (Hdown : hasPointerCapture (pointerId e0) (scroller down) = true).
  { unfold hasPointerCapture. rewrite Hc0. cbn [existsb].
    rewrite Z.eqb_refl. reflexivity. }
  split; [exact Hdown|].
  pose proof (session_open props s e0 mids Ho He Hm Hmid) as (Hm2 & Hd2 & _).
  assert (Hc2 : pointerCapture (scroller (fst (run props (PointerDown e0 :: mids) s)))
                = pointerId e0 :: pointerCapture (scroller s)).
  { cbn [run]. unfold down in Hc0.
    destruct (dispatch props (PointerDown e0) s) as [s1 o1]. cbn [fst] in Hc0.
    pose proof (mids_keep_capture mids s1 Hmid) as H2.
    destruct (run props mids s1) as [s2 o2]. cbn [fst] in *. congruence. }
  subst after.
  change (PointerDown e0 :: mids ++ [ending])
    with ((PointerDown e0 :: mids) ++ [ending]).
  rewrite run_app.
  destruct (run props (PointerDown e0 :: mids) s) as [s2 o2]. cbn [fst snd] in *.
  pose proof (release_capture ending e1 s2 Hend Ho Hm2 Hd2) as Hrel.
  cbn [run]. destruct (dispatch props ending s2) as [s3 o3]. cbn [fst snd] in *.
  unfold hasPointerCapture in *. rewrite Hrel.
  destruct (existsb (Z.eqb (pointerId e1)) (pointerCapture (scroller s2))) eqn:E.
  - split; [apply existsb_filter_self|].
    intros Hne. rewrite (existsb_filter_other _ _ _ Hne), Hc2.
    cbn [existsb]. rewrite Z.eqb_refl. reflexivity.
  - split; [exact E|].
    intros _. rewrite Hc2. cbn [existsb]. rewrite Z.eqb_refl. reflexivity.
Qed.

End Edges.

(** ** Instances of the further properties *)



Lemma pointer_move_tracks_from_drag_start_witness :
  let s := mount threePagesRtl (scrollerAt 100 (-100)) "" in
  let before :=
    fst (run threePagesRtl
           (PointerDown (pointerAt 200)
              :: [PointerMove (pointerAt 170); Scrolled (-130)]) s) in
  orientation threePagesRtl = horizontal
  /\ scrollEnabledRef s = true
  /\ scrollerRef s = true
  /\ scrollLeft
       (scroller (fst (dispatch threePagesRtl (PointerMove (pointerAt 140)) before)))
     = (scrollLeft (scroller s)
        - (clientX (pointerAt 140) - clientX (pointerAt 200))
          * dragDirection threePagesRtl)%Q.
Proof.
  cbv zeta. repeat (split; [reflexivity|]).
  apply (pointer_move_tracks_from_drag_start threePagesRtl
           (mount threePagesRtl (scrollerAt 100 (-100)) "")
           (pointerAt 200) (pointerAt 140)
           [PointerMove (pointerAt 170); Scrolled (-130)]
           eq_refl eq_refl eq_refl eq_refl).
Defined.

Lemma vertical_pager_only_navigates_witness :
  let s := mount verticalPages (scrollerAt 100 0) "" in
  let r := run verticalPages
             [Scrolled 60; PointerDown (pointerAt 200);
              PointerMove (pointerAt 140); PointerUp (pointerAt 140);
              Elapse 500; SetPage 2] s in
  orientation verticalPages = vertical
  /\ timeouts s = []
  /\ stateEvents (snd r) = []
  /\ pageScrolls (snd r) = [].
Proof.
  cbv zeta. split; [reflexivity|]. split; [reflexivity|].
  destruct (vertical_pager_only_navigates verticalPages
              [Scrolled 60; PointerDown (pointerAt 200);
               PointerMove (pointerAt 140); PointerUp (pointerAt 140);
               Elapse 500; SetPage 2]
              (mount verticalPages (scrollerAt 100 0) "") eq_refl eq_refl)
    as (H1 & H2 & _).
  split; [exact H1 | exact H2].
Defined.

Lemma unmounted_pager_behaviour_witness :
  let s := detached (mount threePages (scrollerAt 100 60) "") in
  scrollerRef s = false
  /\ settleCallback threePages s
     = mkOutcome s (stateNote threePages settling) (Abrupt NullDereference).
Proof.
  cbv zeta. split; [reflexivity|].
  apply (unmounted_pager_behaviour threePages
           (detached (mount threePages (scrollerAt 100 60) ""))
           1 true (pointerAt 0) eq_refl).
Defined.

Lemma navigation_writes_only_committed_index_witness :
  let s := mount threePages (scrollerAt 100 0) "" in
  navigates (SetPage 2) = true
  /\ scrollEnabledRef (fst (dispatch threePages (SetPage 2) s))
     = scrollEnabledRef s.
Proof.
  cbv zeta. split; [reflexivity|].
  apply (navigation_writes_only_committed_index threePages (SetPage 2)
           (mount threePages (scrollerAt 100 0) "") eq_refl).
Defined.

Lemma scroll_state_events_come_in_blocks_witness :
  let s := mount threePages (scrollerAt 100 0) "" in
  scrollerRef s = true
  /\ bracketed
       (stateEvents
          (snd (run threePages
                  [Scrolled 60; PointerDown (pointerAt 200);
                   PointerDown (pointerAt 210); PointerUp (pointerAt 140);
                   Scrolled 100; Elapse 120] s))) = true.
Proof.
  cbv zeta. split; [reflexivity|].
  apply (scroll_state_events_come_in_blocks threePages
           [Scrolled 60; PointerDown (pointerAt 200);
            PointerDown (pointerAt 210); PointerUp (pointerAt 140);
            Scrolled 100; Elapse 120]
           (mount threePages (scrollerAt 100 0) "") eq_refl).
Defined.

Lemma suppressed_selection_is_permanent_witness :
  let s := fst (run threePages
                  [PointerDown (pointerAt 200); PointerDown (pointerAt 210);
                   PointerUp (pointerAt 140)]
                  (mount threePages (scrollerAt 100 0) "auto")) in
  body_userSelect s = "none"%string
  /\ restoreRef s = None
  /\ body_userSelect
       (fst (run threePages
               [PointerDown (pointerAt 10); PointerUp (pointerAt 10)] s))
     = "none"%string.
Proof.
  cbv zeta. split; [reflexivity|]. split; [reflexivity|].
  apply (suppressed_selection_is_permanent threePages
           [PointerDown (pointerAt 10); PointerUp (pointerAt 10)]
           (fst (run threePages
                   [PointerDown (pointerAt 200); PointerDown (pointerAt 210);
                    PointerUp (pointerAt 140)]
                   (mount threePages (scrollerAt 100 0) "auto")))
           eq_refl eq_refl).
Defined.

Lemma disabled_gestures_start_no_drag_witness :
  let s := set_scrollEnabledRef false (mount threePages (scrollerAt 100 0) "") in
  let inputs := [PointerDown (pointerAt 200); PointerMove (pointerAt 140);
                 PointerUp (pointerAt 140); SetScrollEnabled false] in
  forallb (fun i => negb (enables i)) inputs = true
  /\ scrollEnabledRef s = false
  /\ draggingRef s = false
  /\ dispatch threePages (PointerDown (pointerAt 200)) s = (s, [])
  /\ draggingRef (fst (run threePages inputs s)) = false.
Proof.
  cbv zeta. do 3 (split; [reflexivity|]).
  destruct (disabled_gestures_start_no_drag threePages
              [PointerDown (pointerAt 200); PointerMove (pointerAt 140);
               PointerUp (pointerAt 140); SetScrollEnabled false]
              (set_scrollEnabledRef false (mount threePages (scrollerAt 100 0) ""))
              (pointerAt 200) eq_refl eq_refl eq_refl)
    as (H1 & H2 & _).
  split; [exact H1 | exact H2].
Defined.

Lemma pointer_down_cancels_pending_settle_witness :
  let s := mount threePages (scrollerAt 100 0) "" in
  orientation threePages = horizontal
  /\ onPageScrollStateChanged threePages = true
  /\ scrollerRef s = true
  /\ scrollEnabledRef s = true
  /\ draggingRef s = false
  /\ timers_ok s
  /\ stateEvents
       (snd (run threePages
               (Scrolled 60 :: PointerDown (pointerAt 200) :: [Elapse 5000]) s))
     = [dragging].
Proof.
  cbv zeta.
  assert (Hok : timers_ok (mount threePages (scrollerAt 100 0) "")).
  { split; [intros t []|]. apply Nat.le_0_l. }
  repeat (split; [first [reflexivity | exact Hok]|]).
  apply (pointer_down_cancels_pending_settle threePages
           (mount threePages (scrollerAt 100 0) "") 60%Q (pointerAt 200)
           [Elapse 5000] eq_refl eq_refl eq_refl eq_refl eq_refl Hok eq_refl).
Defined.

Lemma settle_after_navigation_reissues_target_witness :
  let s := mount threePagesRtl (scrollerAt 100 0) "" in
  let x := signed threePagesRtl
             (inject_Z (target threePagesRtl 2) * stepOf threePagesRtl s) in
  orientation threePagesRtl = horizontal
  /\ scrollerRef s = true
  /\ draggingRef s = false
  /\ timers_ok s
  /\ (0 < stepOf threePagesRtl s)%Q
  /\ (120 <= 120)%N
  /\ selections
       (snd (run threePagesRtl [Scrolled x; Elapse 120]
               (final (scrollTo threePagesRtl 2 false s)))) = [].
Proof.
  cbv zeta.
  assert (Hok : timers_ok (mount threePagesRtl (scrollerAt 100 0) "")).
  { split; [intros t []|]. apply Nat.le_0_l. }
  assert (Hq : (120 <= 120)%N) by discriminate.
  repeat (split; [first [reflexivity | exact Hok | exact Hq]|]).
  apply (settle_after_navigation_reissues_target threePagesRtl
           (mount threePagesRtl (scrollerAt 100 0) "") 2 false 120%N
           eq_refl eq_refl eq_refl Hok eq_refl Hq).
Defined.

Lemma empty_pager_navigates_to_index_zero_witness :
  let s := mount noPages (scrollerAt 100 0) "" in
  pageCount noPages = 0%nat
  /\ scrollerRef s = true
  /\ onPageSelected noPages = true
  /\ currentIndexRef s <> 0
  /\ selections (emitted (initialFrame noPages s)) = [0].
Proof.
  cbv zeta.
  assert (Hne : currentIndexRef (mount noPages (scrollerAt 100 0) "") <> 0)
    by discriminate.
  repeat (split; [first [reflexivity | exact Hne]|]).
  apply (empty_pager_navigates_to_index_zero noPages
           (mount noPages (scrollerAt 100 0) "") (initialPage noPages) false
           eq_refl eq_refl); [reflexivity | exact Hne].
Defined.

Lemma drag_end_releases_ending_pointer_witness :
  let s := mount threePages (scrollerAt 100 0) "" in
  let first_pointer := {| pointerId := 1; clientX := 200 |} in
  let other_pointer := {| pointerId := 2; clientX := 50 |} in
  let after :=
    fst (run threePages
           (PointerDown first_pointer
              :: [PointerMove first_pointer] ++ [PointerUp other_pointer]) s) in
  orientation threePages = horizontal
  /\ scrollEnabledRef s = true
  /\ scrollerRef s = true
  /\ pointerId other_pointer <> pointerId first_pointer
  /\ hasPointerCapture (pointerId first_pointer) (scroller after) = true.
Proof.
  cbv zeta.
  assert (Hne : pointerId {| pointerId := 2; clientX := 50 |}
                <> pointerId {| pointerId := 1; clientX := 200 |})
    by discriminate.
  repeat (split; [first [reflexivity | exact Hne]|]).
  apply (drag_end_releases_ending_pointer threePages
           (mount threePages (scrollerAt 100 0) "")
           {| pointerId := 1; clientX := 200 |}
           {| pointerId := 2; clientX := 50 |}
           [PointerMove {| pointerId := 1; clientX := 200 |}]
           (PointerUp {| pointerId := 2; clientX := 50 |})
           eq_refl eq_refl eq_refl eq_refl (or_introl eq_refl)).
  exact Hne.
Defined.
